(** * Shallow embedding of the ebp2docs decoding core

    Sources: [src/js/enums.js], [src/js/parser.js] (second module, from
    line 229), and the channel / component decoder modules in
    [src/unnamed/part_000].

    Conventions of the embedding:
    - a JavaScript number that the code only ever obtains from [parseInt] is
      an integer [Z]; [NaN] is [None] of [option Z]; a double holds such an
      integer exactly only up to 2^53 in magnitude, so a statement that
      depends on the exact value of a number computed further carries
      that bound;
    - a slot that may hold [null] or a number is [option Z] ([None] = null);
      a slot that may hold [undefined] (an array read out of range) is an
      [option] whose [None] is [undefined];
    - JS [Map]s are association lists: [map_set] overwrites in place or
      appends, [map_get] returns the (unique) binding;
    - an XML document is the element tree that [DOMParser] returns; a
      malformed text is a tree that contains a [parsererror] element. *)

From Stdlib Require Import ZArith String Ascii List Bool Lia Sorted.
Import ListNotations.
Open Scope string_scope.
Open Scope Z_scope.
Set Warnings "-register-all".

(** ** JavaScript helpers *)
Module Js.

(** Whitespace skipped by [parseInt] and [trim] ([StrWhiteSpaceChar]),
    within the Latin-1 code units: TAB, LF, VT, FF, CR, SP and NBSP. *)
Definition is_ws (c : ascii) : bool :=
  let n := nat_of_ascii c in
  (Nat.eqb n 32 || Nat.eqb n 9 || Nat.eqb n 10 || Nat.eqb n 11
   || Nat.eqb n 12 || Nat.eqb n 13 || Nat.eqb n 160)%bool.

Fixpoint skip_ws (s : string) : string :=
  match s with
  | String c r => if is_ws c then skip_ws r else s
  | EmptyString => EmptyString
  end.

(** Value of a digit in radix 10 or 16. *)
Definition digit_val (radix : Z) (c : ascii) : option Z :=
  let n := Z.of_nat (nat_of_ascii c) in
  let v :=
    if (48 <=? n) && (n <=? 57) then Some (n - 48)
    else if (97 <=? n) && (n <=? 102) then Some (n - 87)
    else if (65 <=? n) && (n <=? 70) then Some (n - 55)
    else None in
  match v with
  | Some d => if d <? radix then Some d else None
  | None => None
  end.

(** Longest prefix of radix digits; [None] when there is no digit. *)
Fixpoint digits (radix : Z) (s : string) (acc : option Z) : option Z :=
  match s with
  | String c r =>
      match digit_val radix c with
      | Some d =>
          let a := match acc with Some a => a | None => 0 end in
          digits radix r (Some (a * radix + d))
      | None => acc
      end
  | EmptyString => acc
  end.

(** Sign step of [parseInt]: a leading [-] or [+] is consumed. *)
Definition split_sign (s1 : string) : Z * string :=
  match s1 with
  | String "-" r => (-1, r)
  | String "+" r => (1, r)
  | _ => (1, s1)
  end.

(** Radix step of [parseInt] without a radix argument: a [0x]/[0X]
    prefix selects radix 16. *)
Definition split_radix (s2 : string) : Z * string :=
  match s2 with
  | String "0" (String "x" r) => (16, r)
  | String "0" (String "X" r) => (16, r)
  | _ => (10, s2)
  end.

(** [parseInt(s)] with no radix: whitespace, sign, optional [0x]/[0X]
    prefix, then the longest run of digits; [None] is [NaN]. *)
Definition parseInt (s : string) : option Z :=
  let '(sign, s2) := split_sign (skip_ws s) in
  let '(radix, s3) := split_radix s2 in
  match digits radix s3 None with
  | Some z => Some (sign * z)
  | None => None
  end.

(** [parseInt(x)] where [x] is an attribute read: [null] becomes the
    string "null", which does not parse. *)
Definition parseInt_attr (a : option string) : option Z :=
  match a with Some s => parseInt s | None => None end.

(** [n || d] for a number [n]: [0] and [NaN] are falsy. *)
Definition or_num (n : option Z) (d : Z) : Z :=
  match n with Some z => if z =? 0 then d else z | None => d end.

(** [s || d] for a string or [null]: the empty string is falsy. *)
Definition or_str (s : option string) (d : string) : string :=
  match s with Some "" | None => d | Some x => x end.

(** Decimal rendering of an integer, as [String(n)] or a template. It
    agrees with JS for integers of magnitude at most 2^53; beyond that JS
    prints the rounded double, in exponent form from 1e21 on. *)
Definition digit_char (d : Z) : ascii := ascii_of_nat (48 + Z.to_nat d).

Fixpoint dec_digits (fuel : nat) (n : Z) (acc : string) : string :=
  match fuel with
  | O => acc
  | S f =>
      let acc' := String (digit_char (n mod 10)) acc in
      if n <? 10 then acc' else dec_digits f (n / 10) acc'
  end.

Definition show (z : Z) : string :=
  let fuel := Pos.size_nat (Z.to_pos (Z.abs z + 1)) in
  if z <? 0 then "-" ++ dec_digits fuel (- z) ""
  else dec_digits fuel z "".

(** JS [Map] over keys with decidable equality. *)
Section JsMap.
Context {K V : Type} (eqk : K -> K -> bool).

Fixpoint map_get (m : list (K * V)) (k : K) : option V :=
  match m with
  | [] => None
  | (k', v) :: r => if eqk k' k then Some v else map_get r k
  end.

Fixpoint map_set (m : list (K * V)) (k : K) (v : V) : list (K * V) :=
  match m with
  | [] => [(k, v)]
  | (k', v') :: r => if eqk k' k then (k', v) :: r else (k', v') :: map_set r k v
  end.

Definition map_of (entries : list (K * V)) : list (K * V) :=
  fold_left (fun m '(k, v) => map_set m k v) entries [].
End JsMap.

(** Reading [arr[i]] for an integer index: [undefined] outside. *)
Definition index {A} (l : list A) (i : Z) : option A :=
  if i <? 0 then None else nth_error l (Z.to_nat i).

(** String methods over Latin-1 code units ([ascii] read as a code unit
    0-255). [toLowerCase] maps A-Z and the Latin-1 capitals (C0-DE but
    D7) 32 places down; [trim] strips the white space and line
    terminators of that range (9-13, 32, A0) from both ends. *)
Definition lower_char (c : ascii) : ascii :=
  let n := nat_of_ascii c in
  if (Nat.leb 65 n && Nat.leb n 90)
     || (Nat.leb 192 n && Nat.leb n 222 && negb (Nat.eqb n 215))%bool
  then ascii_of_nat (n + 32) else c.

Fixpoint toLowerCase (s : string) : string :=
  match s with
  | String c r => String (lower_char c) (toLowerCase r)
  | EmptyString => EmptyString
  end.

Definition is_trim_ws (c : ascii) : bool := is_ws c.

Fixpoint trimStart (s : string) : string :=
  match s with
  | String c r => if is_trim_ws c then trimStart r else s
  | EmptyString => EmptyString
  end.

Fixpoint rev_append_str (s acc : string) : string :=
  match s with
  | String c r => rev_append_str r (String c acc)
  | EmptyString => acc
  end.

Definition trim (s : string) : string :=
  rev_append_str (trimStart (rev_append_str (trimStart s) "")) "".

(** [s.includes(term)]: [term] occurs in [s] at some position. *)
Fixpoint includes (s term : string) : bool :=
  String.prefix term s || match s with String _ r => includes r term | EmptyString => false end.

End Js.
Import Js.

(** ** Channel decoder ([src/unnamed/part_000], lines 292-439) *)
Module ChannelDecoder.

(** A setting-table entry: [type], optional fixed [subtype], optional
    [subtypeMap]. *)
Record config := { cfg_type : string;
                   cfg_subtype : option string;
                   cfg_subtypeMap : option (list (Z * string)) }.

Definition fixed t s := {| cfg_type := t; cfg_subtype := Some s; cfg_subtypeMap := None |}.
Definition bysub t m := {| cfg_type := t; cfg_subtype := None;
                           cfg_subtypeMap := Some (map_of Z.eqb m) |}.

Definition INPUT_MAIN_SETTINGS : list (Z * config) := map_of Z.eqb [
  (1, fixed "digital input" "standard");
  (57, bysub "digital input" [(1, "closes to minus"); (2, "closes to plus");
         (4, "closes to common"); (6, "closes to plus weak pulldown");
         (7, "measure input frequency")]);
  (64, bysub "analog input" [(1, "voltage signal"); (2, "4-20 mA");
         (4, "0-1500 Ohm"); (5, "multiswitch"); (6, "firealarm (constant power)");
         (7, "multiswitch (68Ohm +/- 1%)"); (8, "dual fixed multiswitch");
         (9, "temp sensor ohm")]);
  (54, bysub "window wiper feedback" [(1, "closes to minus in parking");
         (2, "open in parking")])].

Definition OUTPUT_MAIN_SETTINGS : list (Z * config) := map_of Z.eqb [
  (1, fixed "digital output" "standard");
  (48, bysub "digital output +" [(1, "normal"); (2, "open load detection");
         (3, "open load detection at turn on")]);
  (49, bysub "digital output -" [(1, "normal")]);
  (52, bysub "commonline" [(0, "normal")]);
  (53, bysub "half bridge output +/-" [(0, "normal half bridge")]);
  (55, bysub "window wiper" [(1, "connection #1 with diode");
         (2, "connection #1 no diode"); (3, "connection #2 with diode");
         (4, "connection #2 no diode")]);
  (65, bysub "signal drive (max 50mA)" [(0, "positive drive"); (1, "negative drive")])].

Record setting := { type : string; subtype : string }.

(** Channel record as [parseChannels] builds it. *)
Record channel := {
  number : string; name : string; direction : string;
  inMainChannelSettingId : string; inChannelSettingId : string;
  outMainChannelSettingId : string; outChannelSettingId : string }.

Record decoded_settings := { input : setting; output : setting }.

(** Shared body of [decodeInputSettings] / [decodeOutputSettings] after
    the [-1] guard. *)
Definition decodeWith (table : list (Z * config)) (mainId subId : Z) : setting :=
  match map_get Z.eqb table mainId with
  | None => {| type := ":unknown:" ++ show mainId; subtype := ":unknown:" ++ show subId |}
  | Some config =>
      match cfg_subtype config with
      | Some s =>
          if String.eqb s "" then
            let st := match cfg_subtypeMap config with
                      | Some m => map_get Z.eqb m subId | None => None end in
            {| type := cfg_type config;
               subtype := or_str st (":unknown:" ++ show subId) |}
          else {| type := cfg_type config; subtype := s |}
      | None =>
          let st := match cfg_subtypeMap config with
                    | Some m => map_get Z.eqb m subId | None => None end in
          {| type := cfg_type config;
             subtype := or_str st (":unknown:" ++ show subId) |}
      end
  end.

Definition decodeInputSettings (mainId subId : Z) : setting :=
  decodeWith INPUT_MAIN_SETTINGS mainId subId.

Definition decodeOutputSettings (mainId subId : Z) : setting :=
  if mainId =? -1 then {| type := ":unknown:"; subtype := ":unknown:" |}
  else decodeWith OUTPUT_MAIN_SETTINGS mainId subId.

Definition decodeChannelSettings (ch : channel) : decoded_settings :=
  let mainInId := or_num (parseInt (inMainChannelSettingId ch)) 0 in
  let subInId := or_num (parseInt (inChannelSettingId ch)) 0 in
  let mainOutId := or_num (parseInt (outMainChannelSettingId ch)) (-1) in
  let subOutId := or_num (parseInt (outChannelSettingId ch)) (-1) in
  {| input := decodeInputSettings mainInId subInId;
     output := decodeOutputSettings mainOutId subOutId |}.

(** The four integer codes the decoder works on. *)
Definition inMainCode ch := or_num (parseInt (inMainChannelSettingId ch)) 0.
Definition inSubCode ch := or_num (parseInt (inChannelSettingId ch)) 0.
Definition outMainCode ch := or_num (parseInt (outMainChannelSettingId ch)) (-1).
Definition outSubCode ch := or_num (parseInt (outChannelSettingId ch)) (-1).

Definition mkChannel (inMain inSub outMain outSub : string) : channel :=
  {| number := "1"; name := "ch"; direction := "input";
     inMainChannelSettingId := inMain; inChannelSettingId := inSub;
     outMainChannelSettingId := outMain; outChannelSettingId := outSub |}.

End ChannelDecoder.

(** ** Enumerations ([src/js/enums.js]) *)
Module Enums.

Inductive N2kDirection := N2k_NONE | N2k_TRANSMIT | N2k_RECEIVE.

Definition n2k_name (d : N2kDirection) : string :=
  match d with N2k_NONE => "" | N2k_TRANSMIT => "transmit" | N2k_RECEIVE => "receive" end.

Definition n2k_id (d : N2kDirection) : Z :=
  match d with N2k_NONE => -1 | N2k_TRANSMIT => 0 | N2k_RECEIVE => 1 end.

(** [N2kDirection.fromId]: a [switch] with strict equality on [0] and
    [1]; [null] (here [None]) falls to the default. *)
Definition fromId (id : option Z) : N2kDirection :=
  match id with
  | Some 0 => N2k_TRANSMIT
  | Some 1 => N2k_RECEIVE
  | _ => N2k_NONE
  end.

(** [Direction] (lines 9-42). *)
Module Direction.

Inductive t := NONE | BOTH | INPUT | OUTPUT.

Definition name (d : t) : string :=
  match d with NONE => "" | BOTH => "both" | INPUT => "input" | OUTPUT => "output" end.

Definition id (d : t) : Z :=
  match d with NONE => -1 | BOTH => 0 | INPUT => 1 | OUTPUT => 2 end.

(** [fromString(str)]: [str?.toLowerCase() || ''], then a [switch];
    [None] is [null] or [undefined]. *)
Definition fromString (str : option string) : t :=
  let normalized := or_str (option_map toLowerCase str) "" in
  if String.eqb normalized "both" then BOTH
  else if String.eqb normalized "input" then INPUT
  else if String.eqb normalized "output" then OUTPUT
  else NONE.

(** [fromId(id)]: strict equality on [0], [1], [2]; [None] is any value
    that is not a number. *)
Definition fromId (id : option Z) : t :=
  match id with
  | Some 0 => BOTH
  | Some 1 => INPUT
  | Some 2 => OUTPUT
  | _ => NONE
  end.

End Direction.

End Enums.
Import Enums.

(** ** Component decoder ([src/unnamed/part_000], lines 66-290) *)
Module ComponentDecoder.

Definition FLUID_TYPES : list string :=
  ["fuel"; "fresh water"; "waste water"; "live well"; "oil"; "black water"].

Definition TEMPERATURE_SOURCES : list string :=
  ["sea"; "outside"; "inside"; "engine room"; "main cabin"; "live well";
   "bait well"; "refridgeration"; "heating system"; "dew point";
   "wind chill apparent"; "wind chill theoretical"; "heat index"; "freezer"].

Definition J1939_PGNS : list Z :=
  [65014; 65027; 65011; 65008; 65024; 65021; 65017; 65030;
   65004; 65003; 65002; 65001].

(** A property as [parseProperties] returns it: numeric id, raw value. *)
Record property := { prop_id : Z; prop_value : string }.

(** Decoded component. [pgn] and [id] are [None] when the code reads an
    array out of range ([undefined]); [instance] and [device] are [None]
    for [null]. The field [id] is the label. *)
Record decoded := {
  name : string; pgn : option Z; instance : option Z; id : option string;
  direction : N2kDirection; device : option Z }.

(** [createPropertyMap]: property id to [parseInt(value)], [NaN] mapped
    to [null]; later duplicates overwrite earlier ones. *)
Definition createPropertyMap (properties : list property) : list (Z * option Z) :=
  fold_left (fun m p => map_set Z.eqb m (prop_id p) (parseInt (prop_value p)))
            properties [].

(** [getProperty]: [props.get(id) ?? null]. *)
Definition getProperty (props : list (Z * option Z)) (i : Z) : option Z :=
  match map_get Z.eqb props i with Some v => v | None => None end.

Definition createEmptyResult : decoded :=
  {| name := ""; pgn := Some 0; instance := None; id := Some "";
     direction := N2k_NONE; device := None |}.

(** Table read guarded by [x !== null && x < table.length]; a negative
    index passes the guard and reads [undefined]. *)
Definition guarded_index {A} (table : list A) (x : option Z) (dflt : A) : option A :=
  match x with
  | Some i => if i <? Z.of_nat (length table) then index table i else Some dflt
  | None => Some dflt
  end.

(** [n !== null ? String(n + 1) : ''] *)
Definition plus_one_label (n : option Z) : string :=
  match n with Some k => show (k + 1) | None => "" end.

Definition decodeFluidLevel props : decoded :=
  {| name := "Fluid Level"; pgn := Some 127505;
     instance := getProperty props 0;
     id := guarded_index FLUID_TYPES (getProperty props 1) "unknown";
     direction := fromId (getProperty props 2); device := None |}.

Definition decodeBinarySwitch props : decoded :=
  {| name := "Binary Switch"; pgn := Some 127501;
     instance := getProperty props 0;
     id := Some (plus_one_label (getProperty props 1));
     direction := fromId (getProperty props 5); device := None |}.

Definition decodeBinaryIndicator props : decoded :=
  {| name := "Binary Indicator"; pgn := Some 127501;
     instance := getProperty props 0;
     id := Some (plus_one_label (getProperty props 1));
     direction := fromId (getProperty props 2); device := None |}.

Definition decodeTemperature props : decoded :=
  {| name := "Temperature"; pgn := Some 130312;
     instance := getProperty props 0;
     id := guarded_index TEMPERATURE_SOURCES (getProperty props 1) "unknown";
     direction := fromId (getProperty props 5); device := None |}.

Definition decodeSwitchControl props : decoded :=
  {| name := "Switch Control"; pgn := Some 127502;
     instance := getProperty props 1;
     id := Some (plus_one_label (getProperty props 2));
     direction := fromId (getProperty props 0); device := None |}.

Definition decodeJ1939AcPgn props : decoded :=
  {| name := "J1939 AC PGN";
     pgn := guarded_index J1939_PGNS (getProperty props 1) 0;
     instance := None; id := Some ""; direction := N2k_NONE;
     device := getProperty props 0 |}.

Definition decodeProprietaryPgn props : decoded :=
  {| name := "Proprietary PGN"; pgn := Some 65280;
     instance := getProperty props 2; id := Some "";
     direction := fromId (getProperty props 0); device := None |}.

Definition COMPONENT_DECODERS : list (Z * (list (Z * option Z) -> decoded)) :=
  [(1283, decodeFluidLevel); (1281, decodeBinarySwitch);
   (1282, decodeBinaryIndicator); (1285, decodeTemperature);
   (1291, decodeSwitchControl); (1376, decodeJ1939AcPgn);
   (1361, decodeProprietaryPgn)].

(** [decodeComponent(component, properties)]; the component's
    [componentId] is a number or [NaN] ([None]), which no key matches. *)
Definition decodeComponent (componentId : option Z) (properties : list property) : decoded :=
  match componentId with
  | None => createEmptyResult
  | Some c =>
      match map_get Z.eqb COMPONENT_DECODERS c with
      | None => createEmptyResult
      | Some decoder => decoder (createPropertyMap properties)
      end
  end.

Definition has_decoder (c : Z) : bool :=
  match map_get Z.eqb COMPONENT_DECODERS c with Some _ => true | None => false end.

End ComponentDecoder.

(** ** XML documents as [DOMParser] trees *)
Module Xml.

Inductive elem := El (tag : string) (attrs : list (string * string)) (kids : list elem).

Definition tagName (e : elem) : string := match e with El t _ _ => t end.
Definition children (e : elem) : list elem := match e with El _ _ k => k end.

(** [getAttribute]: [null] ([None]) when absent. *)
Definition getAttribute (a : string) (e : elem) : option string :=
  match e with El _ attrs _ => map_get String.eqb attrs a end.

(** Elements of a subtree in document order, each paired with the tag of
    its parent element ([None] for the document root). *)
Fixpoint subtree (parent : option string) (e : elem) : list (option string * elem) :=
  match e with
  | El t _ ks =>
      (parent, e) ::
      (fix forest (l : list elem) : list (option string * elem) :=
         match l with
         | [] => []
         | k :: r => (subtree (Some t) k ++ forest r)%list
         end) ks
  end.

(** Scope of [document.querySelector*] / [getElementsByTagName]: every
    element, the root included. *)
Definition doc_elems (root : elem) : list (option string * elem) := subtree None root.

(** Scope of [element.querySelector*] / [getElementsByTagName]: the
    proper descendants. *)
Definition descendants (e : elem) : list (option string * elem) := tl (subtree None e).

(** Selector [t] over a scope. *)
Definition by_tag (t : string) (scope : list (option string * elem)) : list elem :=
  map snd (filter (fun pe => String.eqb (tagName (snd pe)) t) scope).

(** Selector [p > t] over a scope. *)
Definition by_child (p t : string) (scope : list (option string * elem)) : list elem :=
  map snd (filter (fun pe => match fst pe with
                             | Some pt => String.eqb pt p && String.eqb (tagName (snd pe)) t
                             | None => false end) scope).

Definition first {A} (l : list A) : option A := match l with x :: _ => Some x | [] => None end.

End Xml.
Import Xml.

(** ** Sorting: [Array.prototype.sort] with a comparator *)
Module JsSort.
Section Sort.
Context {A : Type} (cmp : A -> A -> option Z).

(** [SortCompare]: a [NaN] result counts as [+0]. *)
Definition sort_cmp (x y : A) : Z := match cmp x y with Some v => v | None => 0 end.

(** Stable insertion: [x], coming earlier in the input, stays in front of
    every element it does not compare greater than. *)
Fixpoint insert (x : A) (l : list A) : list A :=
  match l with
  | [] => [x]
  | y :: r => if sort_cmp x y <=? 0 then x :: l else y :: insert x r
  end.

(** [Array.prototype.sort] fixes its result only for a comparator that is
    consistent on the array ([consistent_on]): it is then the stable sorted
    permutation, which [sort] computes. For an inconsistent comparator the
    order is implementation-defined, and of [sort] only the fact that it
    returns a permutation holds of every engine. *)
Definition sort (l : list A) : list A := fold_right insert [] l.

(** ECMAScript's consistent comparator on the elements of [l]: every
    result is a number (not [NaN]), [a <CF b] iff [b >CF a], and each of
    the relations [<CF], [=CF], [>CF] is transitive. *)
Definition consistent_on (l : list A) : bool :=
  forallb (fun a => forallb (fun b =>
    match cmp a b, cmp b a with
    | Some x, Some y =>
        (Z.sgn x =? - Z.sgn y)
        && forallb (fun c =>
             match cmp b c, cmp a c with
             | Some z, Some w => implb (Z.sgn x =? Z.sgn z) (Z.sgn w =? Z.sgn x)
             | _, _ => false
             end) l
    | _, _ => false
    end) l) l.
End Sort.
End JsSort.

(** ** Parser ([src/js/parser.js], lines 229-656) *)
Module Parser.
Import ComponentDecoder ChannelDecoder.

Record channel_group := { groupId : string; channels : list channel }.

Record unit := {
  u_id : string; serial : string; u_name : string; unitTypeId : string;
  standardUnitVariantNumber : string; u_channels : list channel_group }.

Definition attr_or (a d : string) (e : elem) : string := or_str (getAttribute a e) d.

Definition parseChannel (c : elem) : channel :=
  {| number := attr_or "number" "N/A" c; ChannelDecoder.name := attr_or "name" "N/A" c;
     ChannelDecoder.direction := attr_or "direction" "N/A" c;
     inMainChannelSettingId := attr_or "inMainChannelSettingId" "" c;
     inChannelSettingId := attr_or "inChannelSettingId" "" c;
     outMainChannelSettingId := attr_or "outMainChannelSettingId" "" c;
     outChannelSettingId := attr_or "outChannelSettingId" "" c |}.

Definition parseChannels (unitElement : elem) : list channel_group :=
  map (fun g => {| groupId := attr_or "channelGroupId" "N/A" g;
                   channels := map parseChannel (by_tag "channel" (descendants g)) |})
      (by_tag "unitChannelGroup" (descendants unitElement)).

Definition parseUnit (u : elem) : unit :=
  {| u_id := attr_or "id" "N/A" u; serial := attr_or "serial" "N/A" u;
     u_name := attr_or "name" "N/A" u; unitTypeId := attr_or "unitTypeId" "N/A" u;
     standardUnitVariantNumber := attr_or "standardUnitVariantNumber" "N/A" u;
     u_channels := parseChannels u |}.

(** [parseUnits]: [inl msg] is a thrown [Error(msg)]. *)
Definition parseUnits (xmlDoc : elem) : string + list unit :=
  match first (by_tag "parsererror" (doc_elems xmlDoc)) with
  | Some _ => inl "Invalid XML format"
  | None =>
      match first (by_tag "units" (doc_elems xmlDoc)) with
      | None => inl "No units container found in the EBP file"
      | Some unitsContainer =>
          let unitElements :=
            filter (fun el => String.eqb (tagName el) "unit") (children unitsContainer) in
          let units := map parseUnit unitElements in
          match units with
          | [] => inl "No units found in the EBP file"
          | _ => inr units
          end
      end
  end.

Record validation := { isValid : bool; errors : list string }.

(** [validateEBP]; nothing in its [try] block throws on a parsed tree. *)
Definition validateEBP (xmlDoc : elem) : validation :=
  match first (by_tag "parsererror" (doc_elems xmlDoc)) with
  | Some _ => {| isValid := false; errors := ["Invalid XML format"] |}
  | None =>
      let e1 := match first (by_tag "project" (doc_elems xmlDoc)) with
                | None => ["Missing project root element"] | Some _ => [] end in
      let e2 := match first (by_tag "units" (doc_elems xmlDoc)) with
                | None => ["Missing units element"] | Some _ => [] end in
      let e3 := match by_tag "unit" (doc_elems xmlDoc) with
                | [] => ["No units found in file"] | _ => [] end in
      let errs := (e1 ++ e2 ++ e3)%list in
      {| isValid := match errs with [] => true | _ => false end; errors := errs |}
  end.

(** [parseProperties]: every [properties > property] below [element]. *)
Definition parseProperty (p : elem) : property :=
  {| prop_id := or_num (parseInt_attr (getAttribute "id" p)) (-1);
     prop_value := attr_or "value" "" p |}.

Definition parseProperties (element : elem) : list property :=
  map parseProperty (by_child "properties" "property" (descendants element)).

(** [findMasterModuleBusId]. *)
Fixpoint scanMaster (units : list elem) : Z :=
  match units with
  | [] => -1
  | u :: rest =>
      let unitTypeId := or_num (parseInt_attr (getAttribute "unitTypeId" u)) 0 in
      if (unitTypeId =? 101) || (unitTypeId =? 100) then
        or_num (parseInt_attr (getAttribute "id" u)) (-1)
      else if existsb (Z.eqb unitTypeId) [20; 1; 16; 4] then
        if existsb (fun p => (prop_id p =? 2) && String.eqb (prop_value p) "2")
                   (parseProperties u)
        then or_num (parseInt_attr (getAttribute "id" u)) (-1)
        else scanMaster rest
      else scanMaster rest
  end.

Definition masterUnits (xmlDoc : elem) : list elem :=
  by_child "units" "unit" (doc_elems xmlDoc).

Definition findMasterModuleBusId (xmlDoc : elem) : Z := scanMaster (masterUnits xmlDoc).

(** Components as [parseComponents] pushes them; [c_device] is
    [decoded.device ?? masterModuleBusId], so it is always a number. *)
Record comp := {
  c_name : string; c_pgn : option Z; c_device : Z; c_instance : option Z;
  c_id : option string; c_direction : string; c_tabName : string }.

Definition opt_eqb (a b : option Z) : bool :=
  match a, b with
  | Some x, Some y => x =? y
  | None, None => true
  | _, _ => false
  end.

(** [a - b] on numbers that may be [undefined] ([None]): [NaN]. *)
Definition opt_sub (a b : option Z) : option Z :=
  match a, b with Some x, Some y => Some (x - y) | _, _ => None end.

Definition or_zero (a : option Z) : Z := match a with Some x => x | None => 0 end.

(** [String(a.id)]: [undefined] prints as "undefined". *)
Definition label_string (l : option string) : string :=
  match l with Some s => s | None => "undefined" end.

(** The comparator of [parseComponents] (lines 548-561).
    [localeCompare] stands for [String.prototype.localeCompare], whose
    result depends on the host's locale. *)
Definition compareComponents (localeCompare : string -> string -> Z) (a b : comp) : option Z :=
  if negb (opt_eqb (c_pgn a) (c_pgn b)) then opt_sub (c_pgn a) (c_pgn b)
  else if negb (c_device a =? c_device b) then Some (c_device a - c_device b)
  else if negb (opt_eqb (c_instance a) (c_instance b))
  then Some (or_zero (c_instance a) - or_zero (c_instance b))
  else
    match parseInt (label_string (c_id a)), parseInt (label_string (c_id b)) with
    | Some aId, Some bId => Some (aId - bId)
    | _, _ => Some (localeCompare (label_string (c_id a)) (label_string (c_id b)))
    end.

Definition componentOfNode (master : Z) (tabName : string) (componentNode : elem) : list comp :=
  let componentId := parseInt_attr (getAttribute "componentId" componentNode) in
  if opt_eqb componentId (Some 1292) || opt_eqb componentId (Some 2304) then []
  else
    let decoded := decodeComponent componentId (parseProperties componentNode) in
    if String.eqb (ComponentDecoder.name decoded) "" then []
    else [{| c_name := ComponentDecoder.name decoded; c_pgn := pgn decoded;
             c_device := match device decoded with Some d => d | None => master end;
             c_instance := instance decoded; c_id := ComponentDecoder.id decoded;
             c_direction := n2k_name (ComponentDecoder.direction decoded);
             c_tabName := tabName |}].

(** Unsorted list built by the two [forEach] loops. *)
Definition collectComponents (xmlDoc : elem) : list comp :=
  let master := findMasterModuleBusId xmlDoc in
  flat_map (fun schema =>
              flat_map (componentOfNode master (attr_or "name" "" schema))
                       (by_child "components" "component" (descendants schema)))
           (by_tag "schema" (doc_elems xmlDoc)).

Definition parseComponents (localeCompare : string -> string -> Z) (xmlDoc : elem) : list comp :=
  JsSort.sort (compareComponents localeCompare) (collectComponents xmlDoc).

(** [parseMemory] (lines 569-607). *)
Record memory := { m_type : string; m_location : option (option Z); m_bits : Z }.

Definition MEMORY_TYPES : list (Z * (string * Z)) :=
  map_of Z.eqb [(0, ("Bit (1 Bit)", 1)); (1, ("UByte (8 Bit)", 8));
                (2, ("UWord (16 Bit)", 16)); (3, ("UDWord (32 Bit)", 32))].

(** The local [propertyMap]: id to [parseInt(value) || null]. *)
Definition memPropertyMap (properties : list property) : list (Z * option Z) :=
  fold_left (fun m p =>
               map_set Z.eqb m (prop_id p)
                 (match parseInt (prop_value p) with
                  | Some z => if z =? 0 then None else Some z
                  | None => None end))
            properties [].

(** [MEMORY_TYPES.get(memType)]: [memType] is [undefined] ([None]),
    [null] ([Some None]) or a number. *)
Definition memTypeOf (memType : option (option Z)) : string * Z :=
  match memType with
  | Some (Some k) =>
      match map_get Z.eqb MEMORY_TYPES k with Some t => t | None => ("unknown", 1) end
  | _ => ("unknown", 1)
  end.

Definition memoryEntry (componentNode : elem) : memory :=
  let propertyMap := memPropertyMap (parseProperties componentNode) in
  let type := memTypeOf (map_get Z.eqb propertyMap 0) in
  {| m_type := fst type; m_location := map_get Z.eqb propertyMap 1; m_bits := snd type |}.

(** [ToNumber] of a location: [undefined] is [NaN], [null] is [0]. *)
Definition location_number (l : option (option Z)) : option Z :=
  match l with None => None | Some None => Some 0 | Some (Some z) => Some z end.

Definition parseMemory (xmlDoc : elem) : list memory :=
  JsSort.sort (fun a b => opt_sub (location_number (m_location a)) (location_number (m_location b)))
    (map memoryEntry
       (filter (fun c => opt_eqb (parseInt_attr (getAttribute "componentId" c)) (Some 2304))
               (by_tag "component" (doc_elems xmlDoc)))).

End Parser.

(** ** Readings of the specification, compared against the code above *)
Module SpecSide.
Import Parser ComponentDecoder.

(** Spec, section 4.4: a unit qualifies as bus master when its unit-type
    code is 101 or 100, or is one of 20, 1, 16, 4 and it carries a
    property with id 2 and raw value exactly "2". *)
Definition master_rule (u : elem) : bool :=
  let t := or_num (parseInt_attr (getAttribute "unitTypeId" u)) 0 in
  ((t =? 101) || (t =? 100))
  || (existsb (Z.eqb t) [20; 1; 16; 4]
      && existsb (fun p => (prop_id p =? 2) && String.eqb (prop_value p) "2")
                 (parseProperties u)).

(** Case-sensitive (code-unit) lexicographic comparison of strings. *)
Definition codeUnitCompare (s t : string) : Z :=
  match String.compare s t with Lt => -1 | Eq => 0 | Gt => 1 end.

(** Spec, section 4.5: [x] comes strictly before [y] in the order
    (PGN, device, instance with absent as 0, label numerically when both
    parse as integers, else case-sensitive lexicographically). *)
Definition claim_before (x y : comp) : bool :=
  let px := or_zero (c_pgn x) in let py := or_zero (c_pgn y) in
  let ix := or_zero (c_instance x) in let iy := or_zero (c_instance y) in
  let lx := label_string (c_id x) in let ly := label_string (c_id y) in
  (px <? py) || ((px =? py) &&
  ((c_device x <? c_device y) || ((c_device x =? c_device y) &&
  ((ix <? iy) || ((ix =? iy) &&
   match parseInt lx, parseInt ly with
   | Some a, Some b => a <? b
   | _, _ => codeUnitCompare lx ly <? 0
   end))))).

(** Whether [a] has key [k]. *)
Definition has_key {A K : Type} (key : A -> K) (eq_dec : forall x y : K, {x = y} + {x <> y})
  (k : K) (a : A) : bool := if eq_dec (key a) k then true else false.

(** Adjacent pairs in the order the sort leaves untouched. *)
Fixpoint sorted_by {A} (cmp : A -> A -> option Z) (l : list A) : bool :=
  match l with
  | x :: ((y :: _) as r) => (JsSort.sort_cmp cmp x y <=? 0) && sorted_by cmp r
  | _ => true
  end.

End SpecSide.

(** ** Example documents *)
Module Docs.

Definition prop (i v : string) : elem := El "property" [("id", i); ("value", v)] [].

(** A well-formed project whose units container has no unit child, but a
    unit element further down. *)
Definition nestedUnitDoc : elem :=
  El "project" [] [El "units" [] [El "group" [] [El "unit" [("id", "7")] []]]].

Definition emptyUnitsDoc : elem := El "project" [] [El "units" [] []].

(** A master module whose id attribute is "0". *)
Definition masterZeroDoc : elem :=
  El "project" [] [El "units" [] [El "unit" [("id", "0"); ("unitTypeId", "101")] []]].

(** A memory component whose type property is 1 (UByte) at location 5. *)
Definition memoryDoc : elem :=
  El "project" [] [El "components" []
    [El "component" [("componentId", "2304")]
       [El "properties" [] [prop "0" "1"; prop "1" "5"]]]].

(** Two switch-control components on one tab: the first has no instance
    property and switch number 1 (label "2"); the second has instance 0
    and switch number 0 (label "1"). *)
Definition switchDoc : elem :=
  El "project" [] [El "schemas" [] [El "schema" [("name", "Tab")]
    [El "components" []
      [El "component" [("componentId", "1291")] [El "properties" [] [prop "2" "1"]];
       El "component" [("componentId", "1291")]
         [El "properties" [] [prop "1" "0"; prop "2" "0"]]]]]].

Definition swA : Parser.comp :=
  {| Parser.c_name := "Switch Control"; Parser.c_pgn := Some 127502; Parser.c_device := -1;
     Parser.c_instance := None; Parser.c_id := Some "2"; Parser.c_direction := "";
     Parser.c_tabName := "Tab" |}.

Definition swB : Parser.comp :=
  {| Parser.c_name := "Switch Control"; Parser.c_pgn := Some 127502; Parser.c_device := -1;
     Parser.c_instance := Some 0; Parser.c_id := Some "1"; Parser.c_direction := "";
     Parser.c_tabName := "Tab" |}.

End Docs.

Import ChannelDecoder ComponentDecoder Parser SpecSide Docs.

(** Output pair of a channel with no output configuration. *)
Definition no_output : setting := {| type := ":unknown:"; subtype := ":unknown:" |}.

(** The channel [ch] with its out-main attribute replaced. *)
Definition with_outMain (ch : channel) (s : string) : channel :=
  {| number := number ch; ChannelDecoder.name := ChannelDecoder.name ch;
     ChannelDecoder.direction := ChannelDecoder.direction ch;
     inMainChannelSettingId := inMainChannelSettingId ch;
     inChannelSettingId := inChannelSettingId ch;
     outMainChannelSettingId := s; outChannelSettingId := outChannelSettingId ch |}.

(** Unit 3 (type 20, no property), then the master module 0 (type 100),
    then the master module 9 (type 101). *)
Definition masterZeroFirstDoc : elem :=
  El "project" [] [El "units" []
    [El "unit" [("id", "3"); ("unitTypeId", "20")] [];
     El "unit" [("id", "0"); ("unitTypeId", "100")] [];
     El "unit" [("id", "9"); ("unitTypeId", "101")] []]].

(** ** Alarms, schemas and project metadata ([src/js/parser.js]) *)
Module ParserMeta.

(** [parseAlarms] (lines 331-404). *)
Record alarm := {
  schemaName : string; componentId : string; componentRevision : string;
  componentInstanceId : string; alarmId : string; alarmName : string }.

(** [e.getAttribute(a) === v]: [null] equals no string. *)
Definition attr_is (a v : string) (e : elem) : bool :=
  match getAttribute a e with Some x => String.eqb x v | None => false end.

(** The loop over the [property] elements: [(alarmId, alarmName)]. *)
Definition alarmFields (propertyElements : list elem) : string * string :=
  fold_left (fun '(alarmId, alarmName) property =>
               if attr_is "id" "4" property then (attr_or "value" "N/A" property, alarmName)
               else if attr_is "id" "31" property then (alarmId, attr_or "value" "N/A" property)
               else (alarmId, alarmName))
            propertyElements ("N/A", "N/A").

(** The body of the loop over the [component] elements of a schema. *)
Definition alarmOf (schemaName : string) (component : elem) : list alarm :=
  if attr_is "componentId" "1292" component then
    let componentRevision := attr_or "componentRevision" "N/A" component in
    let id := attr_or "id" "N/A" component in
    match first (by_tag "properties" (descendants component)) with
    | None => []
    | Some propertiesElement =>
        let '(alarmId, alarmName) :=
          alarmFields (by_tag "property" (descendants propertiesElement)) in
        if negb (String.eqb alarmId "N/A") || negb (String.eqb alarmName "N/A") then
          [{| schemaName := schemaName; componentId := "1292";
              componentRevision := componentRevision; componentInstanceId := id;
              alarmId := alarmId; alarmName := alarmName |}]
        else []
    end
  else [].

(** The [alarms] array before the sort. *)
Definition collectAlarms (xmlDoc : elem) : list alarm :=
  flat_map (fun schema =>
              let schemaName := attr_or "name" "Unknown" schema in
              match first (by_tag "components" (descendants schema)) with
              | None => []
              | Some componentsContainer =>
                  flat_map (alarmOf schemaName) (by_tag "component" (descendants componentsContainer))
              end)
           (by_tag "schema" (doc_elems xmlDoc)).

(** [parseInt(a.alarmId) || 0] *)
Definition alarmKey (a : alarm) : Z := or_num (parseInt (alarmId a)) 0.

Definition compareAlarms (a b : alarm) : option Z := Some (alarmKey a - alarmKey b).

Definition parseAlarms (xmlDoc : elem) : list alarm :=
  JsSort.sort compareAlarms (collectAlarms xmlDoc).

(** [parseProjectMetadata] (lines 411-428). *)
Record metadata := {
  firmware : string; fileFormatVersion : string; savedAtUtc : string;
  formatVersion : string; studioVersion : string }.

Definition parseProjectMetadata (xmlDoc : elem) : option metadata :=
  match first (by_tag "project" (doc_elems xmlDoc)) with
  | None => None
  | Some project =>
      Some {| firmware := attr_or "firmware" "N/A" project;
              fileFormatVersion := attr_or "fileFormatVersion" "N/A" project;
              savedAtUtc := attr_or "savedAtUtc" "N/A" project;
              formatVersion := attr_or "formatVersion" "N/A" project;
              studioVersion := attr_or "studioVersion" "N/A" project |}
  end.

(** [parseSchemas] (lines 482-498). *)
Record schema := { s_id : Z; s_name : string; sortIndex : Z }.

Definition schemaOf (e : elem) : schema :=
  {| s_id := or_num (parseInt_attr (getAttribute "id" e)) 0;
     s_name := attr_or "name" "" e;
     sortIndex := or_num (parseInt_attr (getAttribute "sortIndex" e)) 0 |}.

Definition compareSchemas (a b : schema) : option Z := Some (sortIndex a - sortIndex b).

Definition parseSchemas (xmlDoc : elem) : list schema :=
  JsSort.sort compareSchemas (map schemaOf (by_child "schemas" "schema" (doc_elems xmlDoc))).

End ParserMeta.

(** ** Statistics and search over parsed units ([src/js/parser.js]) *)
Module Utilities.

(** [getStatistics] (lines 988-1012): the counters
    [(totalChannels, inputChannels, outputChannels, bothChannels)]. *)
Record statistics := {
  totalUnits : Z; totalChannels : Z; inputChannels : Z;
  outputChannels : Z; bothChannels : Z }.

Definition countChannel (st : Z * Z * Z * Z) (channel : channel) : Z * Z * Z * Z :=
  let '(total, inp, out, both) := st in
  let total := total + 1 in
  if String.eqb (ChannelDecoder.direction channel) "Input" then (total, inp + 1, out, both)
  else if String.eqb (ChannelDecoder.direction channel) "Output" then (total, inp, out + 1, both)
  else if String.eqb (ChannelDecoder.direction channel) "Both" then (total, inp, out, both + 1)
  else (total, inp, out, both).

Definition getStatistics (units : list Parser.unit) : statistics :=
  let '(total, inp, out, both) :=
    fold_left (fun st unit =>
                 fold_left (fun st group => fold_left countChannel (channels group) st)
                           (u_channels unit) st)
              units (0, 0, 0, 0) in
  {| totalUnits := Z.of_nat (length units); totalChannels := total;
     inputChannels := inp; outputChannels := out; bothChannels := both |}.

(** [!searchTerm || searchTerm.trim() === ''] for a string. *)
Definition isBlank (searchTerm : string) : bool :=
  String.eqb searchTerm "" || String.eqb (trim searchTerm) "".

(** Name, id or serial of the unit, lower-cased, contains [term]. *)
Definition unitMatches (term : string) (unit : Parser.unit) : bool :=
  includes (toLowerCase (u_name unit)) term
  || includes (toLowerCase (u_id unit)) term
  || includes (toLowerCase (serial unit)) term.

(** [filterUnits] (lines 1020-1046); [None] is a [null] or [undefined]
    search term. *)
Definition filterUnits (units : list Parser.unit) (searchTerm : option string) : list Parser.unit :=
  match searchTerm with
  | None => units
  | Some s =>
      if isBlank s then units
      else
        let term := toLowerCase s in
        filter (fun unit =>
                  unitMatches term unit
                  || existsb (fun group =>
                                existsb (fun channel =>
                                           includes (toLowerCase (ChannelDecoder.name channel)) term)
                                        (channels group))
                             (u_channels unit))
               units
  end.

(** The channel filter of [filterUnitsAndChannels]; [number] is already
    a string, so [toString] leaves it as it is. *)
Definition channelMatches (term : string) (channel : channel) : bool :=
  includes (toLowerCase (ChannelDecoder.name channel)) term
  || includes (number channel) term
  || includes (toLowerCase (ChannelDecoder.direction channel)) term.

(** [unit.channels.map(...).filter(group => group.channels.length > 0)] *)
Definition filterGroups (term : string) (groups : list channel_group) : list channel_group :=
  filter (fun group => negb (Nat.eqb (length (channels group)) 0))
         (map (fun group => {| groupId := groupId group;
                               channels := filter (channelMatches term) (channels group) |})
              groups).

(** [{ ...unit, channels: gs }] *)
Definition with_channels (unit : Parser.unit) (gs : list channel_group) : Parser.unit :=
  {| u_id := u_id unit; serial := serial unit; u_name := u_name unit;
     unitTypeId := unitTypeId unit;
     standardUnitVariantNumber := standardUnitVariantNumber unit; u_channels := gs |}.

(** A unit of the result; [allChannelsMatch] is the field
    [_allChannelsMatch], [None] when it is not set. *)
Record filteredUnit := { f_unit : Parser.unit; allChannelsMatch : option bool }.

Record filterResult := { f_units : list filteredUnit; hasSearch : bool }.

(** [filterUnitsAndChannels] (lines 1055-1096). *)
Definition filterUnitsAndChannels (units : list Parser.unit) (searchTerm : option string) : filterResult :=
  let unchanged := {| f_units := map (fun u => {| f_unit := u; allChannelsMatch := None |}) units;
                      hasSearch := false |} in
  match searchTerm with
  | None => unchanged
  | Some s =>
      if isBlank s then unchanged
      else
        let term := toLowerCase s in
        {| f_units :=
             flat_map (fun unit =>
                         let unitMatches := unitMatches term unit in
                         let filteredChannelGroups := filterGroups term (u_channels unit) in
                         if unitMatches || negb (Nat.eqb (length filteredChannelGroups) 0) then
                           [{| f_unit := with_channels unit
                                           (if unitMatches then u_channels unit
                                            else filteredChannelGroups);
                               allChannelsMatch := Some unitMatches |}]
                         else [])
                      units;
           hasSearch := true |}
  end.

(** [getDirectionColor] (lines 902-909): [colors[direction] || '#999'].
    The lookup goes through the prototype chain of the object literal: a
    key of [Object.prototype] yields the inherited member (a function, or
    the prototype itself for [__proto__]), which is truthy. *)
Inductive js_value := JsStr (s : string) | JsProto (key : string).

Definition OBJECT_PROTOTYPE_KEYS : list string :=
  ["constructor"; "__defineGetter__"; "__defineSetter__"; "hasOwnProperty";
   "__lookupGetter__"; "__lookupSetter__"; "isPrototypeOf"; "propertyIsEnumerable";
   "toString"; "valueOf"; "__proto__"; "toLocaleString"].

Definition colors : list (string * string) :=
  [("Input", "#4CAF50"); ("Output", "#2196F3"); ("Both", "#FF9800")].

Definition getDirectionColor (direction : string) : js_value :=
  match map_get String.eqb colors direction with
  | Some c => if String.eqb c "" then JsStr "#999" else JsStr c
  | None =>
      if existsb (String.eqb direction) OBJECT_PROTOTYPE_KEYS then JsProto direction
      else JsStr "#999"
  end.

End Utilities.

(** ** Auxiliary definitions for the statements below *)
Module Aux.
Import Utilities.

(** A string of decimal digits only. *)
Definition is_digit (c : ascii) : bool :=
  match digit_val 10 c with Some _ => true | None => false end.

Fixpoint all_digits (s : string) : bool :=
  match s with String c r => is_digit c && all_digits r | EmptyString => true end.

(** Number of channels of [cs] whose direction is exactly [s]. *)
Definition dir_count (s : string) (cs : list channel) : Z :=
  Z.of_nat (length (filter (fun c => String.eqb (ChannelDecoder.direction c) s) cs)).

End Aux.

(** ** More example documents *)
Module ExtraDocs.
Import ParserMeta Utilities.

(** Three memory components at locations 7, 2 and 5, in that order. *)
Definition memComp (loc : string) : elem :=
  El "component" [("componentId", "2304")] [El "properties" [] [prop "1" loc]].

Definition memoryOrderDoc : elem :=
  El "project" [] [El "components" [] [memComp "7"; memComp "2"; memComp "5"]].

(** One alarm component (type 1292) with alarm id 12. *)
Definition alarmDoc : elem :=
  El "project" [] [El "schemas" [] [El "schema" [("name", "Alarms")]
    [El "components" []
      [El "component" [("componentId", "1292"); ("id", "7")]
         [El "properties" [] [prop "4" "12"; prop "31" "High bilge"]]]]]].

Definition alarmA : alarm :=
  {| schemaName := "Alarms"; componentId := "1292"; componentRevision := "N/A";
     componentInstanceId := "7"; alarmId := "12"; alarmName := "High bilge" |}.

(** A project with a firmware attribute and an empty [savedAtUtc]. *)
Definition projectDoc : elem :=
  El "project" [("firmware", "2.1"); ("savedAtUtc", "")]
    [El "units" [] [El "unit" [("id", "1")] []]].

Definition projectMeta : metadata :=
  {| firmware := "2.1"; fileFormatVersion := "N/A"; savedAtUtc := "N/A";
     formatVersion := "N/A"; studioVersion := "N/A" |}.

Definition chanPump : channel :=
  {| number := "3"; ChannelDecoder.name := "Bilge Pump"; ChannelDecoder.direction := "Output";
     inMainChannelSettingId := ""; inChannelSettingId := "";
     outMainChannelSettingId := "1"; outChannelSettingId := "" |}.

Definition chanLight : channel :=
  {| number := "4"; ChannelDecoder.name := "Light"; ChannelDecoder.direction := "Output";
     inMainChannelSettingId := ""; inChannelSettingId := "";
     outMainChannelSettingId := "1"; outChannelSettingId := "" |}.

Definition unitA : Parser.unit :=
  {| u_id := "1"; serial := "S1"; u_name := "Helm"; unitTypeId := "20";
     standardUnitVariantNumber := "0";
     u_channels := [{| groupId := "g"; channels := [chanPump; chanLight] |}] |}.

(** [unitA] as a search for "PUMP" returns it: only the pump channel. *)
Definition pumpView : filteredUnit :=
  {| f_unit := with_channels unitA [{| groupId := "g"; channels := [chanPump] |}];
     allChannelsMatch := Some false |}.

End ExtraDocs.

(** * Theorems *)

Example parseInt_ex1 : parseInt "  -42abc" = Some (-42). Proof. reflexivity. Qed.
Example parseInt_ex2 : parseInt "0x1A" = Some 26. Proof. reflexivity. Qed.
Example parseInt_ex3 : parseInt "" = None. Proof. reflexivity. Qed.
Example show_ex : show (-105) = "-105" /\ show 0 = "0". Proof. split; reflexivity. Qed.

Example decode_exB :
  ChannelDecoder.input (ChannelDecoder.decodeChannelSettings
                          (ChannelDecoder.mkChannel "57" "2" "" ""))
  = {| ChannelDecoder.type := "digital input"; ChannelDecoder.subtype := "closes to plus" |}.
Proof. reflexivity. Qed.

(** ** Channel settings *)

Lemma input_of_channel ch :
  input (decodeChannelSettings ch) = decodeInputSettings (inMainCode ch) (inSubCode ch).
Proof. reflexivity. Qed.

Lemma output_of_channel ch :
  output (decodeChannelSettings ch) = decodeOutputSettings (outMainCode ch) (outSubCode ch).
Proof. reflexivity. Qed.

(** C1 (counterexample): a channel with no setting attributes has input
    main code 0, which the input table lacks, yet its type string does not
    begin with "unknown:" followed by the code: it is ":unknown:0". *)
Lemma C1_counterexample :
  inMainCode (mkChannel "" "" "" "") = 0
  /\ map_get Z.eqb INPUT_MAIN_SETTINGS 0 = None
  /\ type (input (decodeChannelSettings (mkChannel "" "" "" ""))) = ":unknown:0"
  /\ String.prefix ("unknown:" ++ show 0) (type (input (decodeChannelSettings (mkChannel "" "" "" "")))) = false.
Proof. repeat split; reflexivity. Qed.

(** C1 (amended): for every channel, a main code absent from the relevant
    table (input side; output side with main code other than -1) gives the
    type ":unknown:" followed by the main code and the subtype ":unknown:"
    followed by the sub code. *)
Theorem C1_unknown_main_code (ch : channel) :
  (map_get Z.eqb INPUT_MAIN_SETTINGS (inMainCode ch) = None ->
   input (decodeChannelSettings ch)
   = {| type := ":unknown:" ++ show (inMainCode ch);
        subtype := ":unknown:" ++ show (inSubCode ch) |})
  /\ (outMainCode ch <> -1 ->
      map_get Z.eqb OUTPUT_MAIN_SETTINGS (outMainCode ch) = None ->
      output (decodeChannelSettings ch)
      = {| type := ":unknown:" ++ show (outMainCode ch);
           subtype := ":unknown:" ++ show (outSubCode ch) |}).
Proof.
  split.
  - intros H. rewrite input_of_channel. unfold decodeInputSettings, decodeWith.
    now rewrite H.
  - intros Hneq H. rewrite output_of_channel. unfold decodeOutputSettings.
    apply Z.eqb_neq in Hneq. rewrite Hneq. unfold decodeWith. now rewrite H.
Qed.

Lemma C1_unknown_main_code_witness :
  input (decodeChannelSettings (mkChannel "3" "9" "" "")) = {| type := ":unknown:3"; subtype := ":unknown:9" |}
  /\ output (decodeChannelSettings (mkChannel "" "" "77" "4")) = {| type := ":unknown:77"; subtype := ":unknown:4" |}.
Proof.
  pose proof (C1_unknown_main_code (mkChannel "3" "9" "" "")) as [H1 _].
  pose proof (C1_unknown_main_code (mkChannel "" "" "77" "4")) as [_ H2].
  split.
  - apply H1. reflexivity.
  - apply H2; [vm_compute; discriminate | reflexivity].
Defined.

(** C2 (counterexample): a channel without an out-main attribute has
    out-main code -1 and decodes its output to ":unknown:" / ":unknown:",
    not to "unknown:" / "unknown:". *)
Lemma C2_counterexample :
  outMainCode (mkChannel "" "" "" "") = -1
  /\ output (decodeChannelSettings (mkChannel "" "" "" "")) = no_output
  /\ no_output <> {| type := "unknown:"; subtype := "unknown:" |}.
Proof. repeat split; try reflexivity. discriminate. Qed.

(** C2 (amended): out-main code -1 (also an absent attribute, which
    [parseChannels] stores as "") decodes the output side to exactly
    {type ":unknown:", subtype ":unknown:"}, whatever the sub code and
    before any table lookup. *)
Theorem C2_no_output_sentinel :
  (forall subId, decodeOutputSettings (-1) subId = no_output)
  /\ (forall ch, outMainCode ch = -1 -> output (decodeChannelSettings ch) = no_output)
  /\ (forall c : elem, getAttribute "outMainChannelSettingId" c = None ->
      output (decodeChannelSettings (parseChannel c)) = no_output).
Proof.
  split; [|split].
  - reflexivity.
  - intros ch H. rewrite output_of_channel, H. reflexivity.
  - intros c H. rewrite output_of_channel.
    unfold outMainCode, parseChannel, attr_or; simpl. rewrite H. reflexivity.
Qed.

Lemma C2_no_output_sentinel_witness :
  output (decodeChannelSettings (mkChannel "1" "" "-1" "3")) = no_output
  /\ output (decodeChannelSettings (parseChannel (El "channel" [("number", "2")] []))) = no_output.
Proof.
  destruct C2_no_output_sentinel as [_ [H1 H2]]. split.
  - apply H1. reflexivity.
  - apply H2. reflexivity.
Defined.

(** C10: an out-main attribute that parses to 0 is treated exactly like an
    absent one: the code becomes -1, the whole decoding equals that of the
    channel with the attribute empty, and the output is the no-output
    sentinel pair. *)
Theorem C10_out_main_zero_is_unset (ch : channel) :
  parseInt (outMainChannelSettingId ch) = Some 0 ->
  outMainCode ch = -1
  /\ decodeChannelSettings ch = decodeChannelSettings (with_outMain ch "")
  /\ output (decodeChannelSettings ch) = no_output.
Proof.
  intros H. split; [|split].
  - unfold outMainCode. rewrite H. reflexivity.
  - unfold decodeChannelSettings. simpl. rewrite H. reflexivity.
  - rewrite output_of_channel. unfold outMainCode. rewrite H. reflexivity.
Qed.

Lemma C10_out_main_zero_is_unset_witness :
  output (decodeChannelSettings (mkChannel "1" "0" "0" "1")) = no_output.
Proof.
  apply (C10_out_main_zero_is_unset (mkChannel "1" "0" "0" "1")). reflexivity.
Defined.

(** ** Component decoder *)

(** C3: a component-type code with no registered decoder (or one that did
    not parse) decodes, for any property list, to the empty record: name
    "", pgn 0, no instance, label "", direction NONE, no device. *)
Theorem C3_unregistered_is_empty (c : option Z) (properties : list property) :
  (forall k, c = Some k -> has_decoder k = false) ->
  decodeComponent c properties
  = {| name := ""; pgn := Some 0; instance := None; id := Some "";
       direction := N2k_NONE; device := None |}.
Proof.
  intros H. unfold decodeComponent. destruct c as [k|]; [|reflexivity].
  specialize (H k eq_refl). unfold has_decoder in H.
  destruct (map_get Z.eqb COMPONENT_DECODERS k); [discriminate|reflexivity].
Qed.

Lemma C3_unregistered_is_empty_witness :
  decodeComponent (Some 1292) [{| prop_id := 4; prop_value := "12" |}]
  = {| name := ""; pgn := Some 0; instance := None; id := Some "";
       direction := N2k_NONE; device := None |}.
Proof.
  apply C3_unregistered_is_empty. intros k Hk. injection Hk as <-. reflexivity.
Defined.

(** C7: component type 1283 with properties 0:"2", 1:"1", 2:"0" decodes to
    Fluid Level, PGN 127505, instance 2, label "fresh water", TRANSMIT. *)
Theorem C7_fluid_level_example :
  decodeComponent (Some 1283)
    [{| prop_id := 0; prop_value := "2" |}; {| prop_id := 1; prop_value := "1" |};
     {| prop_id := 2; prop_value := "0" |}]
  = {| name := "Fluid Level"; pgn := Some 127505; instance := Some 2;
       id := Some "fresh water"; direction := N2k_TRANSMIT; device := None |}.
Proof. reflexivity. Qed.

(** ** Property ids and the memory decoder *)

Lemma or_num_nonzero n d : d <> 0 -> or_num n d <> 0.
Proof. destruct n as [z|]; simpl; [destruct (Z.eqb_spec z 0)|]; auto. Qed.

Lemma map_get_set_neq {V} (m : list (Z * V)) k k' v :
  k' <> k -> map_get Z.eqb (map_set Z.eqb m k' v) k = map_get Z.eqb m k.
Proof.
  intros Hne. induction m as [|[a b] r IH]; simpl.
  - apply Z.eqb_neq in Hne. now rewrite Hne.
  - destruct (Z.eqb_spec a k') as [->|Ha]; simpl.
    + apply Z.eqb_neq in Hne. now rewrite Hne.
    + destruct (Z.eqb a k); [reflexivity|exact IH].
Qed.

(** Setting only ids other than [k] never binds [k]. *)
Lemma fold_set_absent {V} (f : property -> V) (l : list property) m k :
  map_get Z.eqb m k = None -> Forall (fun p => prop_id p <> k) l ->
  map_get Z.eqb (fold_left (fun m p => map_set Z.eqb m (prop_id p) (f p)) l m) k = None.
Proof.
  revert m. induction l as [|p r IH]; intros m Hm Hl; simpl; [exact Hm|].
  inversion Hl as [|? ? Hp Hr]; subst.
  apply IH; [|exact Hr]. now rewrite map_get_set_neq.
Qed.

Lemma parseProperties_nonzero (e : elem) :
  Forall (fun p => prop_id p <> 0) (parseProperties e).
Proof.
  unfold parseProperties. apply Forall_forall. intros p Hp.
  apply in_map_iff in Hp as [pe [<- _]]. apply or_num_nonzero. discriminate.
Qed.

(** C9: a property element whose id is "0" or does not parse is recorded
    with id -1; so no property list built by [parseProperties] has an id 0,
    and both the decoder's property map and the memory property map read
    property 0 as absent. *)
Theorem C9_property_zero_unreachable :
  (forall pe : elem,
     getAttribute "id" pe = Some "0" \/ parseInt_attr (getAttribute "id" pe) = None ->
     prop_id (parseProperty pe) = -1)
  /\ (forall e : elem,
        Forall (fun p => prop_id p <> 0) (parseProperties e)
        /\ getProperty (createPropertyMap (parseProperties e)) 0 = None
        /\ map_get Z.eqb (memPropertyMap (parseProperties e)) 0 = None).
Proof.
  split.
  - intros pe [H|H]; unfold parseProperty; simpl; rewrite H; reflexivity.
  - intros e. pose proof (parseProperties_nonzero e) as Hnz. split; [exact Hnz|split].
    + unfold getProperty, createPropertyMap.
      rewrite (fold_set_absent (fun p => parseInt (prop_value p))); auto.
    + unfold memPropertyMap. apply fold_set_absent; auto.
Qed.

Lemma C9_property_zero_unreachable_witness :
  prop_id (parseProperty (prop "0" "3")) = -1
  /\ prop_id (parseProperty (prop "x" "3")) = -1.
Proof.
  destruct C9_property_zero_unreachable as [H _]. split.
  - apply H. left. reflexivity.
  - apply H. right. reflexivity.
Defined.

(** Every memory entry the parser builds has the default type. *)
Lemma memoryEntry_default (c : elem) : m_type (memoryEntry c) = "unknown" /\ m_bits (memoryEntry c) = 1.
Proof.
  unfold memoryEntry, memPropertyMap.
  rewrite fold_set_absent; [split; reflexivity | reflexivity | apply parseProperties_nonzero].
Qed.

(** C4 (code bug): a memory component whose property 0 is 1 (the UByte,
    8-bit entry of the table) at location 5 is reported as "unknown",
    1 bit, because property id 0 is read back as -1. *)
Theorem C4_memory_type_lost :
  parseMemory memoryDoc
  = [{| m_type := "unknown"; m_location := Some (Some 5); m_bits := 1 |}]
  /\ memTypeOf (Some (Some 1)) = ("UByte (8 Bit)", 8).
Proof. split; reflexivity. Qed.

(** ** Units and validation *)

(** C5 (counterexample): the units container of [nestedUnitDoc] has no
    unit child, so [parseUnits] fails; [validateEBP] still finds the
    nested unit element and reports no violation at all. *)
Lemma C5_counterexample :
  parseUnits nestedUnitDoc = inl "No units found in the EBP file"
  /\ validateEBP nestedUnitDoc = {| isValid := true; errors := [] |}.
Proof. split; reflexivity. Qed.

(** C5 (amended): in a well-formed document whose (first) units container
    has no unit child, [parseUnits] fails with "No units found in the EBP
    file"; [validateEBP] returns a result, which lists "No units found in
    file" exactly when the document has no unit element anywhere. *)
Theorem C5_units_vs_validation (xmlDoc unitsContainer : elem) :
  first (by_tag "parsererror" (doc_elems xmlDoc)) = None ->
  first (by_tag "units" (doc_elems xmlDoc)) = Some unitsContainer ->
  filter (fun el => String.eqb (tagName el) "unit") (children unitsContainer) = [] ->
  parseUnits xmlDoc = inl "No units found in the EBP file"
  /\ (In "No units found in file" (errors (validateEBP xmlDoc))
      <-> by_tag "unit" (doc_elems xmlDoc) = []).
Proof.
  intros Hpe Hu Hc. split.
  - unfold parseUnits. rewrite Hpe, Hu, Hc. reflexivity.
  - unfold validateEBP. rewrite Hpe, Hu. simpl.
    destruct (first (by_tag "project" (doc_elems xmlDoc)));
    destruct (by_tag "unit" (doc_elems xmlDoc)); simpl;
    split; intros H; intuition (try discriminate).
Qed.

Lemma C5_units_vs_validation_witness :
  parseUnits emptyUnitsDoc = inl "No units found in the EBP file"
  /\ In "No units found in file" (errors (validateEBP emptyUnitsDoc)).
Proof.
  destruct (C5_units_vs_validation emptyUnitsDoc (El "units" [] [])) as [H1 H2];
    try reflexivity.
  split; [exact H1|]. apply H2. reflexivity.
Defined.

(** ** Master-device resolution *)

Lemma scanMaster_cons u r :
  scanMaster (u :: r)
  = if master_rule u then or_num (parseInt_attr (getAttribute "id" u)) (-1) else scanMaster r.
Proof.
  unfold master_rule. cbn [scanMaster]. cbv zeta.
  repeat (simpl; match goal with |- context [if ?b then _ else _] => destruct b end);
    reflexivity.
Qed.

Lemma scanMaster_skip pre u post :
  Forall (fun v => master_rule v = false) pre ->
  scanMaster ((pre ++ u :: post)%list) = scanMaster (u :: post).
Proof.
  induction 1 as [|v pre Hv _ IH]; [reflexivity|].
  simpl app. rewrite scanMaster_cons, Hv. exact IH.
Qed.

(** C6 (code bug): when the first qualifying unit of [units > unit] has
    an id attribute that parses to 0, the resolver returns -1, the value it
    returns when no master module is found ([parseInt("0") || -1]); the
    scan stops there, so a later master module is not reached either. *)
Theorem C6_master_id_zero (xmlDoc : elem) pre u post :
  masterUnits xmlDoc = (pre ++ u :: post)%list ->
  Forall (fun v => master_rule v = false) pre ->
  master_rule u = true ->
  parseInt_attr (getAttribute "id" u) = Some 0 ->
  findMasterModuleBusId xmlDoc = -1.
Proof.
  intros Hus Hpre Hu Hid. unfold findMasterModuleBusId.
  rewrite Hus, scanMaster_skip, scanMaster_cons, Hu, Hid by exact Hpre. reflexivity.
Qed.

Lemma C6_master_id_zero_witness :
  findMasterModuleBusId masterZeroDoc = -1
  /\ findMasterModuleBusId masterZeroFirstDoc = -1.
Proof.
  split.
  - apply (C6_master_id_zero masterZeroDoc [] (El "unit" [("id", "0"); ("unitTypeId", "101")] []) []);
      try reflexivity.
    constructor.
  - apply (C6_master_id_zero masterZeroFirstDoc [El "unit" [("id", "3"); ("unitTypeId", "20")] []]
             (El "unit" [("id", "0"); ("unitTypeId", "100")] [])
             [El "unit" [("id", "9"); ("unitTypeId", "101")] []]);
      try reflexivity.
    repeat constructor.
Defined.

(** ** Sorting *)
Section SortFacts.
Context {A : Type} (cmp : A -> A -> option Z).

Lemma sorted_cons2 x y r :
  sorted_by cmp (x :: y :: r) = (JsSort.sort_cmp cmp x y <=? 0) && sorted_by cmp (y :: r).
Proof. reflexivity. Qed.

Lemma sorted_tail x r : sorted_by cmp (x :: r) = true -> sorted_by cmp r = true.
Proof.
  destruct r as [|y r]; [reflexivity|]. rewrite sorted_cons2. now intros [_ H]%andb_true_iff.
Qed.

Lemma insert_cons x y r :
  JsSort.insert cmp x (y :: r)
  = if JsSort.sort_cmp cmp x y <=? 0 then x :: y :: r else y :: JsSort.insert cmp x r.
Proof. reflexivity. Qed.

Lemma sort_cons x r : JsSort.sort cmp (x :: r) = JsSort.insert cmp x (JsSort.sort cmp r).
Proof. reflexivity. Qed.

Lemma sort_sorted_noop (l : list A) : sorted_by cmp l = true -> JsSort.sort cmp l = l.
Proof.
  induction l as [|x r IH]; intros H; [reflexivity|].
  rewrite sort_cons, (IH (sorted_tail x r H)).
  destruct r as [|y r']; [reflexivity|].
  rewrite sorted_cons2 in H. apply andb_true_iff in H as [Hxy _].
  now rewrite insert_cons, Hxy.
Qed.

Hypothesis cmp_anti :
  forall x y, 0 < JsSort.sort_cmp cmp x y -> JsSort.sort_cmp cmp y x <= 0.

Lemma insert_sorted x l :
  sorted_by cmp l = true -> sorted_by cmp (JsSort.insert cmp x l) = true.
Proof.
  induction l as [|y r IH]; intros H; [reflexivity|].
  rewrite insert_cons. destruct (Z.leb_spec (JsSort.sort_cmp cmp x y) 0) as [Hle|Hgt].
  - rewrite sorted_cons2, H. apply Z.leb_le in Hle. now rewrite Hle.
  - specialize (IH (sorted_tail y r H)).
    pose proof (cmp_anti x y Hgt) as Hyx. apply Z.leb_le in Hyx.
    destruct r as [|z r'].
    + simpl. now rewrite Hyx.
    + rewrite sorted_cons2 in H. apply andb_true_iff in H as [Hyz _].
      rewrite insert_cons in IH |- *.
      destruct (JsSort.sort_cmp cmp x z <=? 0).
      * rewrite sorted_cons2, Hyx. exact IH.
      * rewrite sorted_cons2, Hyz. exact IH.
Qed.

Lemma sort_sorted l : sorted_by cmp (JsSort.sort cmp l) = true.
Proof. induction l as [|x r IH]; [reflexivity|]. rewrite sort_cons. apply insert_sorted, IH. Qed.

Lemma sort_idempotent l : JsSort.sort cmp (JsSort.sort cmp l) = JsSort.sort cmp l.
Proof. apply sort_sorted_noop, sort_sorted. Qed.
End SortFacts.

Section Stability.
Context {A K : Type} (cmp : A -> A -> option Z) (key : A -> K)
        (eq_dec : forall x y : K, {x = y} + {x <> y}).
Hypothesis cmp_same_key : forall x y, key x = key y -> JsSort.sort_cmp cmp x y <= 0.

Lemma filter_insert k x l :
  filter (has_key key eq_dec k) (JsSort.insert cmp x l)
  = if has_key key eq_dec k x then x :: filter (has_key key eq_dec k) l else filter (has_key key eq_dec k) l.
Proof.
  induction l as [|y r IH].
  - simpl. destruct (has_key key eq_dec k x); reflexivity.
  - rewrite insert_cons. destruct (Z.leb_spec (JsSort.sort_cmp cmp x y) 0) as [Hle|Hgt].
    + reflexivity.
    + simpl. rewrite IH. unfold has_key.
      destruct (eq_dec (key x) k) as [Hx|Hx]; destruct (eq_dec (key y) k) as [Hy|Hy];
        try reflexivity.
      exfalso. assert (key x = key y) by congruence.
      specialize (cmp_same_key x y H). lia.
Qed.

Lemma sort_stable k l : filter (has_key key eq_dec k) (JsSort.sort cmp l) = filter (has_key key eq_dec k) l.
Proof.
  induction l as [|x r IH]; [reflexivity|].
  rewrite sort_cons, filter_insert, IH. simpl. destruct (has_key key eq_dec k x); reflexivity.
Qed.
End Stability.

(** ** Component ordering *)

Lemma opt_eqb_sym a b : opt_eqb a b = opt_eqb b a.
Proof. destruct a, b; simpl; try reflexivity. apply Z.eqb_sym. Qed.

Lemma opt_eqb_refl a : opt_eqb a a = true.
Proof. destruct a; simpl; [apply Z.eqb_refl|reflexivity]. Qed.

(** The two switch components of [switchDoc], in document order. *)
Lemma switchDoc_collect : collectComponents switchDoc = [swA; swB].
Proof. reflexivity. Qed.

(** C8 (code bug): on [switchDoc] the comparator sees different raw
    instances ([undefined !== 0]) and returns
    [(undefined ?? 0) - (0 ?? 0) = 0] both ways, so the labels are never
    compared. The comparator is consistent on these two components, so
    every conforming sort keeps them in document order: the entry with
    absent instance and label "2" stays before the one with instance 0 and
    label "1", which comes first in the stated order (absent instance as
    0, then label). *)
Theorem C8_instance_tie_skips_label (localeCompare : string -> string -> Z) :
  collectComponents switchDoc = [swA; swB]
  /\ compareComponents localeCompare swA swB = Some 0
  /\ compareComponents localeCompare swB swA = Some 0
  /\ JsSort.consistent_on (compareComponents localeCompare) [swA; swB] = true
  /\ parseComponents localeCompare switchDoc = [swA; swB]
  /\ claim_before swB swA = true.
Proof.
  split; [apply switchDoc_collect|].
  repeat split; reflexivity.
Qed.

(** * Further properties of the code *)

Import ParserMeta Utilities Aux ExtraDocs.

(** ** Integer rendering and parsing *)
Lemma digit_cases c : is_digit c = true ->
  c = "0"%char \/ c = "1"%char \/ c = "2"%char \/ c = "3"%char \/ c = "4"%char \/
  c = "5"%char \/ c = "6"%char \/ c = "7"%char \/ c = "8"%char \/ c = "9"%char.
Proof.
  destruct c as [[] [] [] [] [] [] [] []]; vm_compute; intros H;
    first [discriminate H | tauto].
Qed.

Lemma digit_char_val d : 0 <= d < 10 -> digit_val 10 (digit_char d) = Some d.
Proof.
  intros Hd. assert (Hc : exists k, (k < 10)%nat /\ d = Z.of_nat k).
  { exists (Z.to_nat d). split; lia. }
  destruct Hc as [k [Hk ->]].
  do 10 (destruct k as [|k]; [reflexivity|]). lia.
Qed.
Lemma digits_cons c r oa :
  digits 10 (String c r) oa
  = match digit_val 10 c with
    | Some d => digits 10 r (Some (match oa with Some a => a | None => 0 end * 10 + d))
    | None => oa
    end.
Proof. reflexivity. Qed.

Lemma dec_digits_step f n acc :
  dec_digits (S f) n acc
  = if n <? 10 then String (digit_char (n mod 10)) acc
    else dec_digits f (n / 10) (String (digit_char (n mod 10)) acc).
Proof. reflexivity. Qed.

Lemma dec_digits_spec fuel : forall n acc oa,
  0 <= n < 10 ^ Z.of_nat (S fuel) ->
  match oa with Some a => a = 0 | None => True end ->
  digits 10 (dec_digits (S fuel) n acc) oa = digits 10 acc (Some n).
Proof.
  induction fuel as [|f IH]; intros n acc oa Hn Hoa.
  - change (10 ^ Z.of_nat 1) with 10 in Hn.
    rewrite dec_digits_step. replace (n <? 10) with true by (symmetry; apply Z.ltb_lt; lia).
    rewrite digits_cons, digit_char_val by (apply Z.mod_pos_bound; lia).
    rewrite Z.mod_small by lia.
    destruct oa; [subst|]; f_equal; f_equal; lia.
  - rewrite dec_digits_step. destruct (Z.ltb_spec n 10) as [Hlt|Hge].
    + rewrite digits_cons, digit_char_val by (apply Z.mod_pos_bound; lia).
      rewrite Z.mod_small by lia.
      destruct oa; [subst|]; f_equal; f_equal; lia.
    + rewrite IH.
      * rewrite digits_cons, digit_char_val by (apply Z.mod_pos_bound; lia).
        f_equal. f_equal. pose proof (Z.div_mod n 10). lia.
      * split; [apply Z.div_pos; lia|].
        apply Z.div_lt_upper_bound; [lia|].
        rewrite Nat2Z.inj_succ, Z.pow_succ_r in Hn by lia. lia.
      * exact Hoa.
Qed.

Lemma digit_not_ws c : is_digit c = true -> is_ws c = false.
Proof. destruct c as [[][][][][][][][]]; vm_compute; congruence. Qed.

Lemma split_sign_digit c r : is_digit c = true -> split_sign (String c r) = (1, String c r).
Proof. destruct c as [[][][][][][][][]]; intros H; vm_compute in H; try discriminate H; reflexivity. Qed.

Lemma split_radix_digits c r :
  is_digit c = true -> all_digits r = true -> split_radix (String c r) = (10, String c r).
Proof.
  destruct c as [[][][][][][][][]]; intros H Hr; vm_compute in H; try discriminate H; try reflexivity.
  destruct r as [|c2 r2]; [reflexivity|]. simpl in Hr. apply andb_prop in Hr as [Hc2 _].
  destruct c2 as [[][][][][][][][]]; vm_compute in Hc2; try discriminate Hc2; reflexivity.
Qed.

Lemma is_digit_char d : 0 <= d < 10 -> is_digit (digit_char d) = true.
Proof. intros H. unfold is_digit. rewrite digit_char_val by exact H. reflexivity. Qed.

Lemma dec_digits_all fuel : forall n acc,
  0 <= n -> all_digits (dec_digits fuel n acc) = all_digits acc.
Proof.
  induction fuel as [|f IH]; intros n acc Hn; [reflexivity|].
  rewrite dec_digits_step. destruct (n <? 10).
  - change (all_digits (String (digit_char (n mod 10)) acc))
      with (is_digit (digit_char (n mod 10)) && all_digits acc)%bool.
    rewrite is_digit_char by (apply Z.mod_pos_bound; lia). reflexivity.
  - rewrite IH by (apply Z.div_pos; lia).
    change (all_digits (String (digit_char (n mod 10)) acc))
      with (is_digit (digit_char (n mod 10)) && all_digits acc)%bool.
    rewrite is_digit_char by (apply Z.mod_pos_bound; lia). reflexivity.
Qed.

Lemma dec_digits_cons fuel : forall n c r, exists c' r', dec_digits fuel n (String c r) = String c' r'.
Proof.
  induction fuel as [|f IH]; intros n c r.
  - exists c, r. reflexivity.
  - rewrite dec_digits_step. destruct (n <? 10).
    + eexists; eexists; reflexivity.
    + apply IH.
Qed.

Lemma dec_digits_nonempty f n acc : exists c r, dec_digits (S f) n acc = String c r.
Proof. rewrite dec_digits_step. destruct (n <? 10); eauto using dec_digits_cons. Qed.

Lemma parseInt_all_digits s :
  all_digits s = true -> s <> EmptyString -> parseInt s = digits 10 s None.
Proof.
  destruct s as [|c r]; [congruence|]. intros H _.
  change (all_digits (String c r)) with (is_digit c && all_digits r)%bool in H.
  apply andb_prop in H as [Hc Hr].
  unfold parseInt.
  replace (skip_ws (String c r)) with (String c r)
    by (simpl; rewrite digit_not_ws by exact Hc; reflexivity).
  rewrite split_sign_digit by exact Hc.
  rewrite split_radix_digits by assumption.
  destruct (digits 10 (String c r) None); [f_equal; lia|reflexivity].
Qed.

Lemma size_nat_bound p : Z.pos p < 2 ^ Z.of_nat (Pos.size_nat p).
Proof.
  induction p as [p IH|p IH|]; [| |reflexivity];
    simpl Pos.size_nat; rewrite Nat2Z.inj_succ, Z.pow_succ_r by lia; lia.
Qed.

Lemma show_digits z :
  0 <= z -> exists f, show z = dec_digits (S f) z "" /\ z < 10 ^ Z.of_nat (S f).
Proof.
  intros Hz. unfold show. replace (z <? 0) with false by (symmetry; apply Z.ltb_ge; lia).
  pose proof (size_nat_bound (Z.to_pos (Z.abs z + 1))) as Hb.
  destruct (Pos.size_nat (Z.to_pos (Z.abs z + 1))) as [|f] eqn:E.
  - destruct (Z.to_pos (Z.abs z + 1)); discriminate.
  - exists f. split; [reflexivity|].
    rewrite Z2Pos.id in Hb by lia.
    assert (2 ^ Z.of_nat (S f) <= 10 ^ Z.of_nat (S f)) by (apply Z.pow_le_mono_l; lia).
    lia.
Qed.

Lemma parseInt_show z : parseInt (show z) = Some z.
Proof.
  destruct (Z.ltb_spec z 0) as [Hneg|Hpos].
  - destruct (show_digits (- z)) as [f [Hs Hb]]; [lia|].
    assert (Hshow : show z = String "-" (dec_digits (S f) (- z) "")).
    { rewrite <- Hs. unfold show.
      replace (z <? 0) with true by (symmetry; apply Z.ltb_lt; lia).
      replace (Z.abs z) with (Z.abs (- z)) by lia.
      replace (- z <? 0) with false by (symmetry; apply Z.ltb_ge; lia).
      reflexivity. }
    destruct (dec_digits_nonempty f (- z) "") as [c [r Hcr]].
    pose proof (dec_digits_all (S f) (- z) "" ltac:(lia)) as Ha.
    pose proof (dec_digits_spec f (- z) "" None ltac:(lia) I) as Hd.
    rewrite Hcr in Ha, Hd. rewrite Hshow, Hcr.
    change (all_digits (String c r)) with (is_digit c && all_digits r)%bool in Ha.
    apply andb_prop in Ha as [Hc Hr].
    unfold parseInt. change (skip_ws (String "-" (String c r))) with (String "-" (String c r)).
    change (split_sign (String "-" (String c r))) with (-1, String c r).
    cbv beta iota zeta. rewrite split_radix_digits by assumption.
    cbv beta iota zeta. rewrite Hd. change (Some (-1 * - z) = Some z). f_equal. lia.
  - destruct (show_digits z Hpos) as [f [Hs Hb]]. rewrite Hs.
    rewrite parseInt_all_digits.
    + rewrite dec_digits_spec by (simpl; lia). reflexivity.
    + rewrite dec_digits_all by lia. reflexivity.
    + destruct (dec_digits_nonempty f z "") as [c [r ->]]. discriminate.
Qed.


(** ** Labels *)
Lemma plus_one_label_parse n : parseInt (plus_one_label n) = option_map (fun k => k + 1) n.
Proof. destruct n as [k|]; [apply parseInt_show | reflexivity]. Qed.

(** X1: A binary switch or binary indicator whose property 1 is k, and a switch control whose property 2 is k, get the id label String(k + 1). parseInt reads that label back as k + 1 whenever k + 1 is at most 2^53 in magnitude (where a double holds it exactly). When the property is missing the label is the empty string. *)
Theorem switch_label_roundtrip props (k : Z) (Hk : - 2 ^ 53 <= k + 1 <= 2 ^ 53) :
  (getProperty props 1 = Some k ->
     parseInt (label_string (ComponentDecoder.id (decodeBinarySwitch props))) = Some (k + 1)
     /\ parseInt (label_string (ComponentDecoder.id (decodeBinaryIndicator props))) = Some (k + 1))
  /\ (getProperty props 2 = Some k ->
     parseInt (label_string (ComponentDecoder.id (decodeSwitchControl props))) = Some (k + 1))
  /\ (getProperty props 1 = None ->
     ComponentDecoder.id (decodeBinarySwitch props) = Some ""
     /\ ComponentDecoder.id (decodeBinaryIndicator props) = Some "")
  /\ (getProperty props 2 = None ->
     ComponentDecoder.id (decodeSwitchControl props) = Some "").
Proof.
  cbn [decodeBinarySwitch decodeBinaryIndicator decodeSwitchControl ComponentDecoder.id label_string].
  split; [|split; [|split]]; intros H; rewrite ?plus_one_label_parse, H;
    try split; reflexivity.
Qed.

(** ** Property maps *)
Lemma map_get_set_eq {V} (m : list (Z * V)) k v : map_get Z.eqb (map_set Z.eqb m k v) k = Some v.
Proof.
  induction m as [|[a b] r IH]; simpl.
  - now rewrite Z.eqb_refl.
  - destruct (Z.eqb_spec a k) as [->|Hne]; simpl.
    + now rewrite Z.eqb_refl.
    + apply Z.eqb_neq in Hne. now rewrite Hne.
Qed.

Lemma find_app {A} (f : A -> bool) l1 l2 :
  find f (l1 ++ l2) = match find f l1 with Some x => Some x | None => find f l2 end.
Proof. induction l1 as [|x r IH]; simpl; [reflexivity|]. destruct (f x); auto. Qed.

Lemma fold_set_get {V} (f : property -> V) (l : list property) m k :
  map_get Z.eqb (fold_left (fun m p => map_set Z.eqb m (prop_id p) (f p)) l m) k
  = match find (fun p => prop_id p =? k) (rev l) with
    | Some p => Some (f p)
    | None => map_get Z.eqb m k
    end.
Proof.
  revert m. induction l as [|p r IH]; intros m; [reflexivity|].
  simpl fold_left. rewrite IH. simpl rev. rewrite find_app. simpl find.
  destruct (find (fun p0 => prop_id p0 =? k) (rev r)); [reflexivity|].
  destruct (Z.eqb_spec (prop_id p) k) as [<-|Hne].
  - apply map_get_set_eq.
  - now apply map_get_set_neq.
Qed.

(** X2: Looking up a property id in the map built by createPropertyMap gives parseInt of the value of the LAST property with that id in the list (later duplicates overwrite earlier ones), and nothing when no property has that id. *)
Theorem createPropertyMap_last_wins (properties : list property) (i : Z) :
  getProperty (createPropertyMap properties) i
  = match find (fun p => prop_id p =? i) (rev properties) with
    | Some p => parseInt (prop_value p)
    | None => None
    end.
Proof.
  unfold getProperty, createPropertyMap. rewrite fold_set_get.
  destruct (find _ (rev properties)); reflexivity.
Qed.

(** ** Component registry *)
Lemma registered_decoder c d :
  map_get Z.eqb COMPONENT_DECODERS c = Some d ->
  forall props, ComponentDecoder.name (d props) <> ""
                /\ (device (d props) <> None -> ComponentDecoder.name (d props) = "J1939 AC PGN").
Proof.
  unfold COMPONENT_DECODERS. simpl map_get.
  repeat match goal with |- context [if ?b then _ else _] => destruct b end;
    intros H; inversion H; subst; intros props; simpl; split; try discriminate; try tauto.
Qed.

(** X3: decodeComponent returns a result with a non-empty name exactly when the component id is a number registered in COMPONENT_DECODERS, so the name alone tells a decoded component from an unknown one. *)
Theorem decodeComponent_named (componentId : option Z) (properties : list property) :
  ComponentDecoder.name (decodeComponent componentId properties) <> ""
  <-> exists c, componentId = Some c /\ has_decoder c = true.
Proof.
  unfold decodeComponent, has_decoder. split.
  - destruct componentId as [c|]; [|simpl; tauto].
    destruct (map_get Z.eqb COMPONENT_DECODERS c) eqn:E; [|simpl; tauto].
    intros _. exists c. now rewrite E.
  - intros [c [-> Hc]]. destruct (map_get Z.eqb COMPONENT_DECODERS c) eqn:E; [|discriminate].
    apply (registered_decoder c _ E).
Qed.

(** ** Guarded table reads *)
Lemma guarded_index_eq {A} (table : list A) x dflt :
  guarded_index table x dflt
  = match x with
    | None => Some dflt
    | Some i => if i <? 0 then None else Some (nth (Z.to_nat i) table dflt)
    end.
Proof.
  unfold guarded_index, index. destruct x as [i|]; [|reflexivity].
  destruct (Z.ltb_spec i (Z.of_nat (length table))) as [Hlt|Hge];
    destruct (Z.ltb_spec i 0) as [Hneg|Hpos]; try reflexivity.
  - destruct (nth_error table (Z.to_nat i)) eqn:E.
    + f_equal. symmetry. apply nth_error_nth, E.
    + apply nth_error_None in E. lia.
  - lia.
  - f_equal. symmetry. apply nth_overflow. lia.
Qed.

(** X4: The fluid-level type, the temperature source and the J1939 AC PGN are each read from a table at index property 1. A missing property 1 gives the default ('unknown', or PGN 0). A negative value gives undefined. A valid index gives the table entry. An index at or past the end of the table gives the default. *)
Theorem table_read_undefined props :
  ComponentDecoder.id (decodeFluidLevel props)
  = match getProperty props 1 with
    | None => Some "unknown"
    | Some i => if i <? 0 then None else Some (nth (Z.to_nat i) FLUID_TYPES "unknown")
    end
  /\ ComponentDecoder.id (decodeTemperature props)
  = match getProperty props 1 with
    | None => Some "unknown"
    | Some i => if i <? 0 then None else Some (nth (Z.to_nat i) TEMPERATURE_SOURCES "unknown")
    end
  /\ pgn (decodeJ1939AcPgn props)
  = match getProperty props 1 with
    | None => Some 0
    | Some i => if i <? 0 then None else Some (nth (Z.to_nat i) J1939_PGNS 0)
    end.
Proof. split; [|split]; apply guarded_index_eq. Qed.

(** ** Channel decoder output *)
Lemma map_get_in {K V} (eqk : K -> K -> bool) (m : list (K * V)) k v :
  map_get eqk m k = Some v -> In v (map snd m).
Proof.
  induction m as [|[a b] r IH]; simpl; [discriminate|].
  destruct (eqk a k); [intros H; injection H as <-; now left | intros H; right; auto].
Qed.

Lemma or_str_nonempty s d : d <> "" -> or_str s d <> "".
Proof. destruct s as [[|c r]|]; simpl; congruence. Qed.

Lemma unknown_nonempty s : ":unknown:" ++ s <> "".
Proof. discriminate. Qed.

Lemma decodeWith_nonempty table m s :
  Forall (fun c => cfg_type c <> "") (map snd table) ->
  type (decodeWith table m s) <> "" /\ subtype (decodeWith table m s) <> "".
Proof.
  intros Ht. unfold decodeWith.
  destruct (map_get Z.eqb table m) as [cfg|] eqn:E.
  - pose proof (proj1 (Forall_forall _ _) Ht cfg (map_get_in _ _ _ _ E)) as Hc.
    destruct (cfg_subtype cfg) as [st|].
    + destruct (String.eqb_spec st "") as [_|Hne]; simpl;
        (split; [exact Hc|]); [apply or_str_nonempty, unknown_nonempty | exact Hne].
    + simpl. split; [exact Hc|]. apply or_str_nonempty, unknown_nonempty.
  - simpl. split; apply unknown_nonempty.
Qed.

Lemma input_table_types : Forall (fun c => cfg_type c <> "") (map snd INPUT_MAIN_SETTINGS).
Proof. vm_compute. repeat constructor; discriminate. Qed.

Lemma output_table_types : Forall (fun c => cfg_type c <> "") (map snd OUTPUT_MAIN_SETTINGS).
Proof. vm_compute. repeat constructor; discriminate. Qed.

(** X5: For every channel, the input and output sides of decodeChannelSettings always carry a non-empty type and a non-empty subtype string. *)
Theorem decodeChannelSettings_nonempty (ch : channel) :
  type (input (decodeChannelSettings ch)) <> ""
  /\ subtype (input (decodeChannelSettings ch)) <> ""
  /\ type (output (decodeChannelSettings ch)) <> ""
  /\ subtype (output (decodeChannelSettings ch)) <> "".
Proof.
  unfold decodeChannelSettings; simpl.
  destruct (decodeWith_nonempty INPUT_MAIN_SETTINGS (or_num (parseInt (inMainChannelSettingId ch)) 0)
              (or_num (parseInt (inChannelSettingId ch)) 0) input_table_types) as [H1 H2].
  unfold decodeInputSettings, decodeOutputSettings.
  split; [exact H1|]. split; [exact H2|].
  destruct (_ =? -1); [simpl; split; discriminate|].
  apply decodeWith_nonempty, output_table_types.
Qed.

(** ** Enumerations *)
(** X6: Direction.fromId inverts the numeric id of every Direction value, Direction.fromString inverts its name, and N2kDirection.fromId inverts the numeric id of every N2kDirection value. *)
Theorem direction_roundtrip :
  (forall d, Direction.fromId (Some (Direction.id d)) = d)
  /\ (forall d, Direction.fromString (Some (Direction.name d)) = d)
  /\ (forall d, Enums.fromId (Some (n2k_id d)) = d).
Proof. split; [|split]; intros []; reflexivity. Qed.

Lemma lower_char_idem c : lower_char (lower_char c) = lower_char c.
Proof. destruct c as [[][][][][][][][]]; vm_compute; reflexivity. Qed.

Lemma toLowerCase_idem s : toLowerCase (toLowerCase s) = toLowerCase s.
Proof. induction s as [|c r IH]; simpl; [reflexivity|]. now rewrite lower_char_idem, IH. Qed.

(** X7: Direction.fromString gives the same direction for a string and for its lower-cased form. *)
Theorem fromString_case_insensitive (s : string) :
  Direction.fromString (Some s) = Direction.fromString (Some (toLowerCase s)).
Proof. unfold Direction.fromString. simpl. now rewrite toLowerCase_idem. Qed.

(** ** Sorting: membership and key order *)
Section SortMembers.
Context {A : Type} (cmp : A -> A -> option Z).

Lemma In_insert x y l : In y (JsSort.insert cmp x l) <-> x = y \/ In y l.
Proof.
  induction l as [|z r IH]; [simpl; intuition|].
  rewrite insert_cons. destruct (JsSort.sort_cmp cmp x z <=? 0); simpl; [tauto|].
  rewrite IH. intuition.
Qed.

Lemma In_sort y l : In y (JsSort.sort cmp l) <-> In y l.
Proof.
  induction l as [|x r IH]; [reflexivity|].
  rewrite sort_cons, In_insert, IH. simpl. intuition.
Qed.

Lemma sorted_by_Sorted (R : A -> A -> Prop) l :
  sorted_by cmp l = true ->
  (forall x y, In x l -> In y l -> JsSort.sort_cmp cmp x y <= 0 -> R x y) ->
  Sorted R l.
Proof.
  induction l as [|x r IH]; intros Hs HR; [constructor|].
  constructor.
  - apply IH; [exact (sorted_tail cmp x r Hs)|].
    intros a b Ha Hb. apply HR; right; assumption.
  - destruct r as [|y r']; constructor.
    rewrite sorted_cons2 in Hs. apply andb_true_iff in Hs as [Hxy _].
    apply HR; [left; reflexivity|right; left; reflexivity|]. now apply Z.leb_le.
Qed.
End SortMembers.

Section KeySort.
Context {A : Type} (key : A -> Z) (cmp : A -> A -> option Z).
Hypothesis Hcmp : forall a b, cmp a b = Some (key a - key b).

Lemma key_cmp_anti x y : 0 < JsSort.sort_cmp cmp x y -> JsSort.sort_cmp cmp y x <= 0.
Proof. unfold JsSort.sort_cmp. rewrite !Hcmp. lia. Qed.

Lemma key_sort_sorted l : Sorted (fun a b => key a <= key b) (JsSort.sort cmp l).
Proof.
  apply (sorted_by_Sorted cmp); [apply sort_sorted, key_cmp_anti|].
  intros x y _ _. unfold JsSort.sort_cmp. rewrite Hcmp. lia.
Qed.

Lemma key_sort_stable k l :
  filter (has_key key Z.eq_dec k) (JsSort.sort cmp l) = filter (has_key key Z.eq_dec k) l.
Proof.
  apply sort_stable. intros x y Hxy. unfold JsSort.sort_cmp. rewrite Hcmp, Hxy. lia.
Qed.
End KeySort.

(** ** Components *)
Lemma decodeComponent_device cid props :
  device (decodeComponent cid props) <> None ->
  ComponentDecoder.name (decodeComponent cid props) = "J1939 AC PGN".
Proof.
  unfold decodeComponent. destruct cid as [c|]; [|simpl; tauto].
  destruct (map_get Z.eqb COMPONENT_DECODERS c) as [d|] eqn:E; [|simpl; tauto].
  apply (registered_decoder c d E).
Qed.

Lemma componentOfNode_facts master tabName node c :
  In c (componentOfNode master tabName node) ->
  c_name c <> "" /\ (c_name c <> "J1939 AC PGN" -> c_device c = master).
Proof.
  unfold componentOfNode.
  destruct (_ || _); [simpl; tauto|].
  destruct (String.eqb_spec (ComponentDecoder.name (decodeComponent (parseInt_attr (getAttribute "componentId" node)) (parseProperties node))) "") as [_|Hne];
    [simpl; tauto|].
  intros [<-|[]]; simpl. split; [exact Hne|].
  intros Hj. destruct (device _) eqn:E; [|reflexivity].
  exfalso. apply Hj. apply decodeComponent_device. now rewrite E.
Qed.

(** X8: Every component returned by parseComponents has a non-empty name, and every one except a 'J1939 AC PGN' component carries the bus id found by findMasterModuleBusId as its device. *)
Theorem parseComponents_named_master (localeCompare : string -> string -> Z) (xmlDoc : elem) :
  forall c, In c (parseComponents localeCompare xmlDoc) ->
  c_name c <> ""
  /\ (c_name c <> "J1939 AC PGN" -> c_device c = findMasterModuleBusId xmlDoc).
Proof.
  intros c Hc. unfold parseComponents in Hc. apply In_sort in Hc.
  unfold collectComponents in Hc.
  apply in_flat_map in Hc as [schema [_ Hc]].
  apply in_flat_map in Hc as [node [_ Hc]].
  exact (componentOfNode_facts _ _ _ _ Hc).
Qed.

(** ** Alarms *)
Lemma fold_left_inv {A B} (P : A -> Prop) (f : A -> B -> A) l a :
  P a -> (forall a b, P a -> P (f a b)) -> P (fold_left f l a).
Proof. revert a. induction l as [|b r IH]; intros a Ha Hf; simpl; auto. Qed.

Lemma attr_or_nonempty a d e : d <> "" -> attr_or a d e <> "".
Proof. apply or_str_nonempty. Qed.

Lemma alarmFields_nonempty l : fst (alarmFields l) <> "" /\ snd (alarmFields l) <> "".
Proof.
  unfold alarmFields. apply (fold_left_inv (fun p => fst p <> "" /\ snd p <> "")).
  - split; discriminate.
  - intros [ai an] p [Hi Hn].
    destruct (attr_is "id" "4" p); [|destruct (attr_is "id" "31" p)]; simpl;
      split; try assumption; apply attr_or_nonempty; discriminate.
Qed.

Lemma alarmOf_facts schemaName component a :
  In a (alarmOf schemaName component) ->
  ParserMeta.componentId a = "1292"
  /\ (alarmId a <> "N/A" \/ alarmName a <> "N/A")
  /\ alarmId a <> "" /\ alarmName a <> "".
Proof.
  unfold alarmOf. destruct (attr_is "componentId" "1292" component); [|simpl; tauto].
  destruct (first _) as [pe|]; [|simpl; tauto].
  pose proof (alarmFields_nonempty (by_tag "property" (descendants pe))) as Hne.
  destruct (alarmFields _) as [ai an]. simpl in Hne.
  destruct (String.eqb_spec ai "N/A") as [Hi|Hi]; destruct (String.eqb_spec an "N/A") as [Hn|Hn];
    simpl; try tauto; intros [<-|[]]; simpl; tauto.
Qed.

(** X9: Every alarm returned by parseAlarms belongs to component 1292, has a non-empty alarm id and alarm name, and does not have both of them equal to 'N/A'. *)
Theorem parseAlarms_entries (xmlDoc : elem) :
  forall a, In a (parseAlarms xmlDoc) ->
  ParserMeta.componentId a = "1292"
  /\ (alarmId a <> "N/A" \/ alarmName a <> "N/A")
  /\ alarmId a <> "" /\ alarmName a <> "".
Proof.
  intros a Ha. unfold parseAlarms in Ha. apply In_sort in Ha.
  unfold collectAlarms in Ha. apply in_flat_map in Ha as [schema [_ Ha]].
  destruct (first _) as [cc|]; [|destruct Ha].
  apply in_flat_map in Ha as [comp [_ Ha]].
  exact (alarmOf_facts _ _ _ Ha).
Qed.

(** X10: parseAlarms returns the alarms sorted by their numeric alarm id (parseInt, or 0 when it does not parse), and the sort is stable: alarms with the same key keep the order in which they were collected from the document. *)
Theorem parseAlarms_sorted_stable (xmlDoc : elem) :
  Sorted (fun a b => alarmKey a <= alarmKey b) (parseAlarms xmlDoc)
  /\ forall k, filter (has_key alarmKey Z.eq_dec k) (parseAlarms xmlDoc)
               = filter (has_key alarmKey Z.eq_dec k) (collectAlarms xmlDoc).
Proof.
  split.
  - apply (key_sort_sorted alarmKey compareAlarms). reflexivity.
  - intros k. apply (key_sort_stable alarmKey compareAlarms). reflexivity.
Qed.

(** ** Schemas *)
(** X11: parseSchemas returns the schemas sorted by sortIndex, and schemas with equal sortIndex keep their document order (the sort is stable). *)
Theorem parseSchemas_sorted_stable (xmlDoc : elem) :
  Sorted (fun a b => sortIndex a <= sortIndex b) (parseSchemas xmlDoc)
  /\ forall k, filter (has_key sortIndex Z.eq_dec k) (parseSchemas xmlDoc)
               = filter (has_key sortIndex Z.eq_dec k)
                        (map schemaOf (by_child "schemas" "schema" (doc_elems xmlDoc))).
Proof.
  split.
  - apply (key_sort_sorted sortIndex compareSchemas). reflexivity.
  - intros k. apply (key_sort_stable sortIndex compareSchemas). reflexivity.
Qed.

(** ** Memory *)
(** X12: When every memory entry returned by parseMemory has a location, the result is sorted by the numeric memory location (the witness document lists locations 7, 2, 5 and parseMemory returns 2, 5, 7). *)
Theorem parseMemory_sorted (xmlDoc : elem) :
  (forall m, In m (parseMemory xmlDoc) -> m_location m <> None) ->
  Sorted (fun a b => match location_number (m_location a), location_number (m_location b) with
                     | Some x, Some y => x <= y
                     | _, _ => False
                     end) (parseMemory xmlDoc).
Proof.
  intros Hloc. apply (sorted_by_Sorted (fun a b => opt_sub (location_number (m_location a))
                                                         (location_number (m_location b)))).
  - apply sort_sorted. intros x y. unfold JsSort.sort_cmp, opt_sub.
    destruct (location_number (m_location x)), (location_number (m_location y)); lia.
  - intros x y Hx Hy. apply Hloc in Hx. apply Hloc in Hy.
    unfold JsSort.sort_cmp, opt_sub.
    destruct (m_location x) as [lx|]; [|congruence]. destruct (m_location y) as [ly|]; [|congruence].
    destruct lx, ly; simpl; lia.
Qed.

(** ** Document structure *)
Lemma elem_ind' (P : elem -> Prop) (H : forall t a ks, Forall P ks -> P (El t a ks)) :
  forall e, P e.
Proof.
  fix IH 1. intros [t a ks]. apply H. revert ks. fix IH2 1. intros [|k r].
  - constructor.
  - constructor; [apply IH | apply IH2].
Qed.

Lemma subtree_eq q t a ks :
  subtree q (El t a ks) = (q, El t a ks) :: flat_map (subtree (Some t)) ks.
Proof.
  reflexivity.
Qed.

Lemma in_snd_flat_map {B C} (f : B -> list (option string * C)) l x :
  In x (map snd (flat_map f l)) <-> exists y, In y l /\ In x (map snd (f y)).
Proof.
  rewrite in_map_iff. split.
  - intros [[p e] [<- He]]. apply in_flat_map in He as [y [Hy He]].
    exists y. split; [exact Hy|]. apply in_map_iff. now exists (p, e).
  - intros [y [Hy Hx]]. apply in_map_iff in Hx as [pe [<- Hpe]].
    exists pe. split; [reflexivity|]. apply in_flat_map. eauto.
Qed.

Lemma subtree_root q e : In e (map snd (subtree q e)).
Proof. destruct e as [t a ks]. rewrite subtree_eq. left. reflexivity. Qed.

Lemma subtree_child r : forall q e k,
  In e (map snd (subtree q r)) -> In k (children e) -> In k (map snd (subtree q r)).
Proof.
  induction r as [t a ks IHks] using elem_ind'. intros q e k He Hk.
  rewrite subtree_eq in He |- *. simpl in He |- *.
  destruct He as [<-|He]; right; apply in_snd_flat_map.
  - exists k. split; [exact Hk|]. apply subtree_root.
  - apply in_snd_flat_map in He as [y [Hy He]]. exists y. split; [exact Hy|].
    exact (proj1 (Forall_forall _ _) IHks y Hy (Some t) e k He Hk).
Qed.

Lemma in_by_tag t l x : In x (by_tag t l) <-> In x (map snd l) /\ tagName x = t.
Proof.
  unfold by_tag. rewrite !in_map_iff. split.
  - intros [pe [<- Hpe]]. apply filter_In in Hpe as [Hpe Ht].
    split; [eauto|]. now apply String.eqb_eq.
  - intros [[pe [<- Hpe]] Ht]. exists pe. split; [reflexivity|].
    apply filter_In. split; [exact Hpe|]. now apply String.eqb_eq.
Qed.

(** ** Validation *)
(** X13: validateEBP reports the document valid exactly when its error list is empty, and that is exactly when the document has no parsererror element and has at least one project, one units and one unit element. *)
Theorem validateEBP_valid (xmlDoc : elem) :
  (isValid (validateEBP xmlDoc) = true <-> errors (validateEBP xmlDoc) = [])
  /\ (isValid (validateEBP xmlDoc) = true
      <-> by_tag "parsererror" (doc_elems xmlDoc) = []
          /\ by_tag "project" (doc_elems xmlDoc) <> []
          /\ by_tag "units" (doc_elems xmlDoc) <> []
          /\ by_tag "unit" (doc_elems xmlDoc) <> []).
Proof.
  unfold validateEBP, first.
  destruct (by_tag "parsererror" (doc_elems xmlDoc)); [|simpl; intuition congruence].
  destruct (by_tag "project" (doc_elems xmlDoc)), (by_tag "units" (doc_elems xmlDoc)),
    (by_tag "unit" (doc_elems xmlDoc)); simpl; intuition congruence.
Qed.

(** ** Project metadata *)
(** X14: For a document without a parsererror element, parseProjectMetadata returns null exactly when validateEBP reports 'Missing project root element'. *)
Theorem parseProjectMetadata_vs_validate (xmlDoc : elem) :
  by_tag "parsererror" (doc_elems xmlDoc) = [] ->
  (parseProjectMetadata xmlDoc = None
   <-> In "Missing project root element" (errors (validateEBP xmlDoc))).
Proof.
  intros Hp. unfold parseProjectMetadata, validateEBP, first. rewrite Hp.
  destruct (by_tag "project" (doc_elems xmlDoc)).
  - simpl. tauto.
  - destruct (by_tag "units" (doc_elems xmlDoc)), (by_tag "unit" (doc_elems xmlDoc));
      simpl; split; intros H; try discriminate; intuition discriminate.
Qed.

(** X15: When parseProjectMetadata returns metadata, all five fields (firmware, fileFormatVersion, savedAtUtc, formatVersion, studioVersion) are non-empty strings, missing attributes being replaced by their non-empty defaults. *)
Theorem parseProjectMetadata_fields (xmlDoc : elem) (m : metadata) :
  parseProjectMetadata xmlDoc = Some m ->
  firmware m <> "" /\ fileFormatVersion m <> "" /\ savedAtUtc m <> ""
  /\ formatVersion m <> "" /\ studioVersion m <> "".
Proof.
  unfold parseProjectMetadata. destruct (first _) as [p|]; [|discriminate].
  intros H. injection H as <-. simpl.
  repeat split; apply attr_or_nonempty; discriminate.
Qed.

(** ** Units versus validation *)
(** X16: On a document that validateEBP accepts, parseUnits either returns units or fails with exactly 'No units found in the EBP file'; and whenever parseUnits succeeds, the unit list is non-empty and validateEBP reports no error or only 'Missing project root element'. *)
Theorem parseUnits_vs_validate (xmlDoc : elem) :
  (isValid (validateEBP xmlDoc) = true ->
   (exists units, parseUnits xmlDoc = inr units)
   \/ parseUnits xmlDoc = inl "No units found in the EBP file")
  /\ (forall units, parseUnits xmlDoc = inr units ->
      units <> []
      /\ (errors (validateEBP xmlDoc) = []
          \/ errors (validateEBP xmlDoc) = ["Missing project root element"])).
Proof.
  split.
  - intros Hv. apply validateEBP_valid in Hv as [Hp [_ [Hu _]]].
    unfold parseUnits, first. rewrite Hp.
    destruct (by_tag "units" (doc_elems xmlDoc)) as [|uc rest]; [congruence|].
    destruct (map parseUnit _); [right; reflexivity | left; eauto].
  - intros units. unfold parseUnits, first.
    destruct (by_tag "parsererror" (doc_elems xmlDoc)) eqn:Hp; [|discriminate].
    destruct (by_tag "units" (doc_elems xmlDoc)) as [|uc rest] eqn:Hu; [discriminate|].
    destruct (map parseUnit (filter (fun el => String.eqb (tagName el) "unit") (children uc)))
      as [|u0 us] eqn:Hm; [discriminate|].
    intros H. injection H as <-. split; [discriminate|].
    destruct (filter (fun el => String.eqb (tagName el) "unit") (children uc)) as [|k ks] eqn:Hf;
      [discriminate|].
    assert (Hk : In k (filter (fun el => String.eqb (tagName el) "unit") (children uc)))
      by (rewrite Hf; left; reflexivity).
    apply filter_In in Hk as [Hk Hkt]. apply String.eqb_eq in Hkt.
    assert (Huc : In uc (by_tag "units" (doc_elems xmlDoc))) by (rewrite Hu; left; reflexivity).
    apply in_by_tag in Huc as [Huc _].
    assert (Hin : In k (by_tag "unit" (doc_elems xmlDoc))).
    { apply in_by_tag. split; [|exact Hkt]. exact (subtree_child _ _ _ _ Huc Hk). }
    unfold validateEBP, first. rewrite Hp, Hu.
    destruct (by_tag "unit" (doc_elems xmlDoc)); [destruct Hin|].
    destruct (by_tag "project" (doc_elems xmlDoc)); simpl; auto.
Qed.

(** ** Statistics *)
Lemma fold_left_flat {A B C} (f : A -> B -> A) (F : A -> C -> A) (h : C -> list B) l a :
  (forall a x, F a x = fold_left f (h x) a) ->
  fold_left F l a = fold_left f (flat_map h l) a.
Proof.
  intros HF. revert a. induction l as [|x r IH]; intros a; [reflexivity|].
  simpl. rewrite IH, HF, fold_left_app. reflexivity.
Qed.

Lemma countChannel_fold cs : forall t i o b,
  fold_left countChannel cs (t, i, o, b)
  = (t + Z.of_nat (length cs), i + dir_count "Input" cs,
     o + dir_count "Output" cs, b + dir_count "Both" cs).
Proof.
  unfold dir_count.
  induction cs as [|c r IH]; intros t i o b; simpl.
  - repeat apply (f_equal2 pair); lia.
  - cbn [countChannel].
    destruct (String.eqb (ChannelDecoder.direction c) "Input") eqn:E1,
             (String.eqb (ChannelDecoder.direction c) "Output") eqn:E2,
             (String.eqb (ChannelDecoder.direction c) "Both") eqn:E3;
      try (apply String.eqb_eq in E1; apply String.eqb_eq in E2; congruence);
      try (apply String.eqb_eq in E1; apply String.eqb_eq in E3; congruence);
      try (apply String.eqb_eq in E2; apply String.eqb_eq in E3; congruence);
      rewrite IH; simpl filter; rewrite ?E1, ?E2, ?E3; simpl length; rewrite ?Zpos_P_of_succ_nat, ?Nat2Z.inj_succ; repeat apply (f_equal2 pair); lia.
Qed.

Lemma getStatistics_eq (units : list Parser.unit) :
  getStatistics units
  = let chans := flat_map (fun u => flat_map channels (u_channels u)) units in
    {| totalUnits := Z.of_nat (length units);
       totalChannels := Z.of_nat (length chans);
       inputChannels := dir_count "Input" chans;
       outputChannels := dir_count "Output" chans;
       bothChannels := dir_count "Both" chans |}.
Proof.
  unfold getStatistics.
  rewrite (fold_left_flat countChannel _ (fun u => flat_map channels (u_channels u))).
  - rewrite countChannel_fold. simpl. reflexivity.
  - intros st u. apply fold_left_flat. reflexivity.
Qed.

Lemma dir_count_cons s c r :
  dir_count s (c :: r) = (if String.eqb (ChannelDecoder.direction c) s then 1 else 0) + dir_count s r.
Proof.
  unfold dir_count. cbn [filter]. destruct (String.eqb _ s); cbn [length]; lia.
Qed.

Lemma dir_counts_le cs :
  dir_count "Input" cs + dir_count "Output" cs + dir_count "Both" cs <= Z.of_nat (length cs).
Proof.
  induction cs as [|c r IH]; [reflexivity|].
  rewrite !dir_count_cons. cbn [length]. rewrite Nat2Z.inj_succ.
  destruct (String.eqb (ChannelDecoder.direction c) "Input") eqn:E1,
           (String.eqb (ChannelDecoder.direction c) "Output") eqn:E2,
           (String.eqb (ChannelDecoder.direction c) "Both") eqn:E3;
    try (apply String.eqb_eq in E1; apply String.eqb_eq in E2; congruence);
    try (apply String.eqb_eq in E1; apply String.eqb_eq in E3; congruence);
    try (apply String.eqb_eq in E2; apply String.eqb_eq in E3; congruence);
    lia.
Qed.

(** X17: getStatistics counts the units, all channels of all groups of all units, and the channels whose direction is exactly 'Input', 'Output' and 'Both'; the three direction counts add up to at most the total channel count. *)
Theorem getStatistics_counts (units : list Parser.unit) :
  let st := getStatistics units in
  let chans := flat_map (fun u => flat_map channels (u_channels u)) units in
  st = {| totalUnits := Z.of_nat (length units);
          totalChannels := Z.of_nat (length chans);
          inputChannels := dir_count "Input" chans;
          outputChannels := dir_count "Output" chans;
          bothChannels := dir_count "Both" chans |}
  /\ inputChannels st + outputChannels st + bothChannels st <= totalChannels st.
Proof.
  simpl. rewrite getStatistics_eq. split; [reflexivity|]. simpl. apply dir_counts_le.
Qed.

(** X18: The statistics of a concatenation of two unit lists are the field-wise sums of the statistics of each list. *)
Theorem getStatistics_app (us1 us2 : list Parser.unit) :
  let s := getStatistics (us1 ++ us2) in
  let s1 := getStatistics us1 in
  let s2 := getStatistics us2 in
  totalUnits s = totalUnits s1 + totalUnits s2
  /\ totalChannels s = totalChannels s1 + totalChannels s2
  /\ inputChannels s = inputChannels s1 + inputChannels s2
  /\ outputChannels s = outputChannels s1 + outputChannels s2
  /\ bothChannels s = bothChannels s1 + bothChannels s2.
Proof.
  simpl. rewrite !getStatistics_eq. simpl. unfold dir_count.
  rewrite flat_map_app, !filter_app, !length_app. lia.
Qed.

(** ** Search *)
Lemma lower_char_ws c : is_trim_ws (lower_char c) = is_trim_ws c.
Proof. destruct c as [[][][][][][][][]]; vm_compute; reflexivity. Qed.

Lemma trimStart_lower s : trimStart (toLowerCase s) = toLowerCase (trimStart s).
Proof.
  induction s as [|c r IH]; [reflexivity|]. simpl. rewrite lower_char_ws.
  destruct (is_trim_ws c); [exact IH|reflexivity].
Qed.

Lemma rev_append_lower s : forall acc,
  rev_append_str (toLowerCase s) (toLowerCase acc) = toLowerCase (rev_append_str s acc).
Proof. induction s as [|c r IH]; intros acc; [reflexivity|]. simpl. apply (IH (String c acc)). Qed.

Lemma trim_lower s : trim (toLowerCase s) = toLowerCase (trim s).
Proof.
  unfold trim. rewrite trimStart_lower.
  change "" with (toLowerCase ""). rewrite rev_append_lower, trimStart_lower, rev_append_lower.
  reflexivity.
Qed.

Lemma eqb_empty_lower s : String.eqb (toLowerCase s) "" = String.eqb s "".
Proof. destruct s; reflexivity. Qed.

Lemma isBlank_lower s : isBlank (toLowerCase s) = isBlank s.
Proof. unfold isBlank. now rewrite trim_lower, !eqb_empty_lower. Qed.

(** X19: filterUnits gives the same result for a search term and for its lower-cased form. *)
Theorem filterUnits_case_insensitive (units : list Parser.unit) (s : string) :
  filterUnits units (Some s) = filterUnits units (Some (toLowerCase s)).
Proof.
  unfold filterUnits. rewrite isBlank_lower, toLowerCase_idem. reflexivity.
Qed.

Lemma filter_idem {A} (p : A -> bool) l : filter p (filter p l) = filter p l.
Proof.
  induction l as [|x r IH]; [reflexivity|]. simpl.
  destruct (p x) eqn:E; simpl; [rewrite E, IH|]; auto.
Qed.

(** X20: filterUnits only keeps units from its input, and filtering its result again with the same search term changes nothing. *)
Theorem filterUnits_sub_idem (units : list Parser.unit) (searchTerm : option string) :
  incl (filterUnits units searchTerm) units
  /\ filterUnits (filterUnits units searchTerm) searchTerm = filterUnits units searchTerm.
Proof.
  unfold filterUnits. destruct searchTerm as [s|]; [|split; [apply incl_refl|reflexivity]].
  destruct (isBlank s); [split; [apply incl_refl|reflexivity]|].
  split; [|apply filter_idem].
  intros u Hu. apply filter_In in Hu. tauto.
Qed.

(** X21: filterUnitsAndChannels sets hasSearch exactly when a search term is given and is not blank after trimming; without a search it returns every unit unchanged, in order, with allChannelsMatch unset. *)
Theorem filterUnitsAndChannels_blank (units : list Parser.unit) (searchTerm : option string) :
  hasSearch (filterUnitsAndChannels units searchTerm)
    = match searchTerm with Some s => negb (isBlank s) | None => false end
  /\ (hasSearch (filterUnitsAndChannels units searchTerm) = false ->
      map f_unit (f_units (filterUnitsAndChannels units searchTerm)) = units
      /\ Forall (fun f => allChannelsMatch f = None) (f_units (filterUnitsAndChannels units searchTerm))).
Proof.
  assert (Hu : map f_unit (map (fun u => {| f_unit := u; allChannelsMatch := None |}) units) = units
               /\ Forall (fun f => allChannelsMatch f = None)
                         (map (fun u => {| f_unit := u; allChannelsMatch := None |}) units)).
  { rewrite map_map. split; [apply map_id|]. apply Forall_map, Forall_forall. reflexivity. }
  unfold filterUnitsAndChannels. destruct searchTerm as [s|]; [|split; [reflexivity|intros; exact Hu]].
  destruct (isBlank s); simpl; split; try reflexivity; try discriminate; intros; exact Hu.
Qed.

Lemma with_channels_self u : with_channels u (u_channels u) = u.
Proof. destruct u; reflexivity. Qed.

Lemma filterGroups_facts term gs g :
  In g (filterGroups term gs) ->
  channels g <> []
  /\ Forall (fun c => channelMatches term c = true) (channels g)
  /\ exists g0, In g0 gs /\ groupId g = groupId g0 /\ incl (channels g) (channels g0).
Proof.
  unfold filterGroups. intros Hg. apply filter_In in Hg as [Hg Hn].
  apply in_map_iff in Hg as [g0 [<- Hg0]]. simpl in Hn |- *.
  split; [destruct (filter _ _); [discriminate|congruence]|].
  split.
  - apply Forall_forall. intros c Hc. apply filter_In in Hc. tauto.
  - exists g0. split; [exact Hg0|]. split; [reflexivity|].
    intros c Hc. apply filter_In in Hc. tauto.
Qed.

(** X22: With a non-blank search term, each entry of filterUnitsAndChannels comes from an input unit: either the unit itself matches and is kept whole with allChannelsMatch true, or the unit does not match and is kept with allChannelsMatch false, only non-empty groups of the original unit, each reduced to channels that match the term. *)
Theorem filterUnitsAndChannels_units (units : list Parser.unit) (s : string) :
  isBlank s = false ->
  forall f, In f (f_units (filterUnitsAndChannels units (Some s))) ->
  exists u, In u units
  /\ ((allChannelsMatch f = Some true /\ unitMatches (toLowerCase s) u = true /\ f_unit f = u)
      \/ (allChannelsMatch f = Some false /\ unitMatches (toLowerCase s) u = false
          /\ f_unit f = with_channels u (u_channels (f_unit f))
          /\ u_channels (f_unit f) <> []
          /\ Forall (fun g => channels g <> []
                              /\ Forall (fun c => channelMatches (toLowerCase s) c = true) (channels g)
                              /\ exists g0, In g0 (u_channels u) /\ groupId g = groupId g0
                                            /\ incl (channels g) (channels g0))
                    (u_channels (f_unit f)))).
Proof.
  intros Hb f Hf. unfold filterUnitsAndChannels in Hf. rewrite Hb in Hf. simpl in Hf.
  apply in_flat_map in Hf as [u [Hu Hf]]. exists u. split; [exact Hu|].
  destruct (unitMatches (toLowerCase s) u) eqn:Em; simpl in Hf.
  - destruct Hf as [<-|[]]. left. simpl. rewrite with_channels_self. auto.
  - destruct (Nat.eqb (length (filterGroups (toLowerCase s) (u_channels u))) 0) eqn:El;
      simpl in Hf; [destruct Hf|].
    destruct Hf as [<-|[]]. right. simpl. split; [reflexivity|]. split; [reflexivity|].
    split; [reflexivity|]. split.
    + destruct (filterGroups _ _); [discriminate|congruence].
    + apply Forall_forall. intros g Hg. apply filterGroups_facts, Hg.
Qed.

(** X23: With a non-blank search term, every unit that filterUnits keeps also appears in the result of filterUnitsAndChannels (possibly with fewer channel groups). *)
Theorem filterUnitsAndChannels_covers_filterUnits (units : list Parser.unit) (s : string) :
  isBlank s = false ->
  forall u, In u (filterUnits units (Some s)) ->
  exists f gs, In f (f_units (filterUnitsAndChannels units (Some s))) /\ f_unit f = with_channels u gs.
Proof.
  intros Hb u Hu. unfold filterUnits in Hu. rewrite Hb in Hu.
  apply filter_In in Hu as [Hu Hp].
  unfold filterUnitsAndChannels. rewrite Hb. simpl.
  destruct (unitMatches (toLowerCase s) u) eqn:Em.
  - exists {| f_unit := with_channels u (u_channels u); allChannelsMatch := Some true |}, (u_channels u).
    split; [|reflexivity]. apply in_flat_map. exists u. split; [exact Hu|].
    rewrite Em. left. reflexivity.
  - simpl in Hp. apply existsb_exists in Hp as [g [Hg Hc]].
    apply existsb_exists in Hc as [c [Hc Hn]].
    assert (Hne : Nat.eqb (length (filterGroups (toLowerCase s) (u_channels u))) 0 = false).
    { apply Nat.eqb_neq. intros Hl. apply length_zero_iff_nil in Hl.
      assert (Hin : In {| groupId := groupId g; channels := filter (channelMatches (toLowerCase s)) (channels g) |}
                       (filterGroups (toLowerCase s) (u_channels u))).
      { unfold filterGroups. apply filter_In. split.
        - apply in_map_iff. exists g. split; [reflexivity|exact Hg].
        - simpl. destruct (filter (channelMatches (toLowerCase s)) (channels g)) eqn:Ef; [|reflexivity].
          assert (In c (filter (channelMatches (toLowerCase s)) (channels g))).
          { apply filter_In. split; [exact Hc|]. unfold channelMatches. now rewrite Hn. }
          rewrite Ef in H. destruct H. }
      rewrite Hl in Hin. destruct Hin. }
    eexists {| f_unit := with_channels u (filterGroups (toLowerCase s) (u_channels u));
               allChannelsMatch := Some false |}, _.
    split; [|reflexivity]. apply in_flat_map. exists u. split; [exact Hu|].
    rewrite Em, Hne. left. reflexivity.
Qed.

(** ** Direction colours *)
Lemma existsb_eqb_in d l : existsb (String.eqb d) l = true <-> In d l.
Proof.
  rewrite existsb_exists. split.
  - intros [x [Hx Hd]]. apply String.eqb_eq in Hd. now subst.
  - intros Hd. exists d. split; [exact Hd|]. apply String.eqb_refl.
Qed.

(** X24: getDirectionColor returns one of the four colour strings for every direction except a key inherited from Object.prototype (such as 'toString' or 'constructor'), for which it returns that inherited member instead of a colour. *)
Theorem getDirectionColor_cases (direction : string) :
  (In direction OBJECT_PROTOTYPE_KEYS -> getDirectionColor direction = JsProto direction)
  /\ (~ In direction OBJECT_PROTOTYPE_KEYS ->
      exists c, getDirectionColor direction = JsStr c
                /\ In c ["#4CAF50"; "#2196F3"; "#FF9800"; "#999"]).
Proof.
  unfold getDirectionColor, colors. cbn [map_get].
  destruct (String.eqb_spec "Input" direction) as [<-|_];
    [split; [intros H; vm_compute in H; intuition discriminate | intros _; eexists; split; [reflexivity|simpl; tauto]]|].
  destruct (String.eqb_spec "Output" direction) as [<-|_];
    [split; [intros H; vm_compute in H; intuition discriminate | intros _; eexists; split; [reflexivity|simpl; tauto]]|].
  destruct (String.eqb_spec "Both" direction) as [<-|_];
    [split; [intros H; vm_compute in H; intuition discriminate | intros _; eexists; split; [reflexivity|simpl; tauto]]|].
  split.
  - intros H. apply existsb_eqb_in in H. rewrite H. reflexivity.
  - intros H. destruct (existsb (String.eqb direction) OBJECT_PROTOTYPE_KEYS) eqn:E.
    + apply existsb_eqb_in in E. contradiction.
    + eexists. split; [reflexivity|simpl; tauto].
Qed.

(** ** Witnesses *)
Lemma parseComponents_named_master_witness :
  c_name swA <> ""
  /\ (c_name swA <> "J1939 AC PGN" -> c_device swA = findMasterModuleBusId switchDoc).
Proof.
  apply (parseComponents_named_master codeUnitCompare switchDoc swA).
  vm_compute. left. reflexivity.
Defined.

Lemma parseAlarms_entries_witness :
  ParserMeta.componentId alarmA = "1292"
  /\ (alarmId alarmA <> "N/A" \/ alarmName alarmA <> "N/A")
  /\ alarmId alarmA <> "" /\ alarmName alarmA <> "".
Proof.
  apply (parseAlarms_entries alarmDoc alarmA).
  vm_compute. left. reflexivity.
Defined.

Lemma switch_label_roundtrip_witness :
  parseInt (label_string (ComponentDecoder.id (decodeBinarySwitch [(1, Some 4)])))  = Some 5
  /\ parseInt (label_string (ComponentDecoder.id (decodeSwitchControl [(2, Some 11)]))) = Some 12.
Proof.
  split.
  - apply (switch_label_roundtrip [(1, Some 4)] 4); [lia | reflexivity].
  - apply (switch_label_roundtrip [(2, Some 11)] 11); [lia | reflexivity].
Defined.

Lemma parseMemory_sorted_witness :
  map (fun c => m_location (memoryEntry c)) (by_tag "component" (doc_elems memoryOrderDoc))
  = [Some (Some 7); Some (Some 2); Some (Some 5)]
  /\ map m_location (parseMemory memoryOrderDoc) = [Some (Some 2); Some (Some 5); Some (Some 7)]
  /\ Sorted (fun a b => match location_number (m_location a), location_number (m_location b) with
                        | Some x, Some y => x <= y
                        | _, _ => False
                        end) (parseMemory memoryOrderDoc).
Proof.
  split; [reflexivity|]. split; [reflexivity|].
  apply (parseMemory_sorted memoryOrderDoc).
  intros m Hm. vm_compute in Hm. destruct Hm as [<-|[<-|[<-|[]]]]; discriminate.
Defined.

Lemma parseProjectMetadata_vs_validate_witness :
  parseProjectMetadata projectDoc = None
  <-> In "Missing project root element" (errors (validateEBP projectDoc)).
Proof. apply (parseProjectMetadata_vs_validate projectDoc). reflexivity. Defined.

Lemma parseProjectMetadata_fields_witness :
  firmware projectMeta <> "" /\ fileFormatVersion projectMeta <> "" /\ savedAtUtc projectMeta <> ""
  /\ formatVersion projectMeta <> "" /\ studioVersion projectMeta <> "".
Proof. apply (parseProjectMetadata_fields projectDoc projectMeta). reflexivity. Defined.

Lemma filterUnitsAndChannels_units_witness :
  exists u, In u [unitA]
  /\ ((allChannelsMatch pumpView = Some true /\ unitMatches (toLowerCase "PUMP") u = true
       /\ f_unit pumpView = u)
      \/ (allChannelsMatch pumpView = Some false /\ unitMatches (toLowerCase "PUMP") u = false
          /\ f_unit pumpView = with_channels u (u_channels (f_unit pumpView))
          /\ u_channels (f_unit pumpView) <> []
          /\ Forall (fun g => channels g <> []
                              /\ Forall (fun c => channelMatches (toLowerCase "PUMP") c = true) (channels g)
                              /\ exists g0, In g0 (u_channels u) /\ groupId g = groupId g0
                                            /\ incl (channels g) (channels g0))
                    (u_channels (f_unit pumpView)))).
Proof.
  apply (filterUnitsAndChannels_units [unitA] "PUMP"); [reflexivity|].
  vm_compute. left. reflexivity.
Defined.

Lemma filterUnitsAndChannels_covers_filterUnits_witness :
  exists f gs, In f (f_units (filterUnitsAndChannels [unitA] (Some "PUMP")))
               /\ f_unit f = with_channels unitA gs.
Proof.
  apply (filterUnitsAndChannels_covers_filterUnits [unitA] "PUMP"); [reflexivity|].
  vm_compute. left. reflexivity.
Defined.
